(** * Cold-room refrigeration load: [src/utils/coldRoomCalculations.ts]

    A shallow embedding of [calculateColdRoomLoad] and the properties the
    specification states about it.

    The function is arithmetic on JavaScript numbers, so the embedding is
    written over an interface [JSNumber] of the operations the source
    uses ([+ - * /], [Math.sqrt], [parseFloat], truthiness in [x || d]) and
    read at [float]: IEEE 754 binary64 with round-to-nearest-even, which is
    what a JavaScript engine computes, bit for bit.  What is proved over
    the interface holds of any implementation of these operations.

    binary64 is the standard library's: [SpecFloat] defines each operation
    on mantissas and exponents, and [FloatAxioms] states that the
    primitive floats compute them.  That rounding keeps the order of the
    reals it rounds is proved here from those definitions.

    The three lookup tables ([THERMAL_DATA], [PRODUCTS], [STORAGE_FACTORS])
    are imported by the source from modules that are not part of it; they
    are parameters of the embedding. *)

From Stdlib Require Import ZArith NArith Bool String Ascii List.
From Stdlib Require Import Floats Reals Lra Lia.
From stdpp Require Import base option gmap strings.

Local Open Scope string_scope.
Local Open Scope Z_scope.

(** ** JavaScript numbers *)

Module JS.

(** A decimal numeral: [(-1)^neg * mantissa * 10^exponent].  Number
    literals of the source and the text accepted by [parseFloat] both
    denote one. *)
Record decimal := Decimal { neg : bool; mantissa : N; exponent : Z }.

(** What the source needs from the Number type. *)
Class JSNumber (num : Type) := {
  add : num -> num -> num;
  sub : num -> num -> num;
  mul : num -> num -> num;
  div : num -> num -> num;
  sqrt : num -> num;                 (* Math.sqrt *)
  NaN : num;
  Infinity : bool -> num;            (* [Infinity true] is -Infinity *)
  ofDecimal : decimal -> num;        (* the Number value of a numeral *)
  toBoolean : num -> bool            (* ToBoolean: false on NaN, +0 and -0 *)
}.

(** *** Numerals as they are written in the source *)

Definition decimal_of_parts (i : Decimal.int) (f : Decimal.uint) (e : Z) : decimal :=
  let '(s, u) := match i with Decimal.Pos u => (false, u) | Decimal.Neg u => (true, u) end in
  Decimal s (N.of_uint (Decimal.app u f)) (e - Z.of_nat (Decimal.nb_digits f)).

Definition decimal_of_number (n : Number.number) : option decimal :=
  match n with
  | Number.Decimal (Decimal.Decimal i f) => Some (decimal_of_parts i f 0)
  | Number.Decimal (Decimal.DecimalExp i f e) => Some (decimal_of_parts i f (Z.of_int e))
  | Number.Hexadecimal _ => None
  end.

Definition number_of_decimal (d : decimal) : option Number.number :=
  let u := N.to_uint (mantissa d) in
  Some (Number.Decimal
          (Decimal.DecimalExp (if neg d then Decimal.Neg u else Decimal.Pos u)
                              Decimal.Nil (Z.to_int (exponent d)))).

Declare Scope decimal_scope.
Delimit Scope decimal_scope with decimal.
Number Notation decimal decimal_of_number number_of_decimal : decimal_scope.

(** [lit 3.517] is the Number a literal [3.517] evaluates to. *)
Definition lit {num} `{JSNumber num} (d : decimal) : num := ofDecimal d.
Arguments lit {num _} d%_decimal.

(** [x || d] on numbers. *)
Definition orElse {num} `{JSNumber num} (x d : num) : num :=
  if toBoolean x then x else d.

(** [s || d] on strings: the empty string is the only falsy one. *)
Definition orElseString (s d : string) : string :=
  match s with EmptyString => d | _ => s end.

(** *** [parseFloat]

    ECMAScript, [parseFloat(string)]: strip leading white space, take the
    longest prefix that is a [StrDecimalLiteral], return its Number value,
    or NaN when no prefix is one.  Strings are sequences of 8-bit code
    units, so of the white space and line terminator characters the ones
    below 256 are recognised. *)

Definition isWhiteSpace (c : ascii) : bool :=
  match N_of_ascii c with
  | 9 | 10 | 11 | 12 | 13 | 32 | 160 => true
  | _ => false
  end%N.

Fixpoint trimStart (s : string) : string :=
  match s with
  | String c s' => if isWhiteSpace c then trimStart s' else s
  | EmptyString => s
  end.

Definition digitValue (c : ascii) : option N :=
  let n := N_of_ascii c in
  if ((48 <=? n) && (n <=? 57))%N then Some (n - 48)%N else None.

(** [DecimalDigits] at the head of [s], continuing the numeral [acc]:
    the numeral read, how many digits were read, and the rest. *)
Fixpoint decimalDigits (s : string) (acc : N) (count : Z) : N * Z * string :=
  match s with
  | String c s' =>
      match digitValue c with
      | Some d => decimalDigits s' (10 * acc + d)%N (count + 1)
      | None => (acc, count, s)
      end
  | EmptyString => (acc, count, s)
  end.

Definition signOf (s : string) : bool * string :=
  match s with
  | String "-" s' => (true, s')
  | String "+" s' => (false, s')
  | _ => (false, s)
  end.

(** [ExponentPart] at the head of [s]: [e] or [E], an optional sign and at
    least one digit.  Text that does not continue with one is not part of
    the literal and contributes exponent 0. *)
Definition exponentPart (s : string) : Z :=
  match s with
  | String c s' =>
      if (Ascii.eqb c "e" || Ascii.eqb c "E")%bool then
        let '(sg, s'') := signOf s' in
        let '(v, n, _) := decimalDigits s'' 0%N 0 in
        if n =? 0 then 0 else if sg then - Z.of_N v else Z.of_N v
      else 0
  | EmptyString => 0
  end.

Inductive literal :=
| NotALiteral
| InfinityLiteral (sg : bool)
| DecimalLiteral (d : decimal).

(** The longest [StrDecimalLiteral] prefix of [s]. *)
Definition strDecimalLiteral (s : string) : literal :=
  let '(sg, t) := signOf s in
  if String.prefix "Infinity" t then InfinityLiteral sg else
  let '(i, ni, t1) := decimalDigits t 0%N 0 in
  match t1 with
  | String "." t2 =>
      let '(m, nf, t3) := decimalDigits t2 i 0 in
      if ((ni =? 0) && (nf =? 0))%bool then NotALiteral
      else DecimalLiteral (Decimal sg m (exponentPart t3 - nf))
  | _ =>
      if ni =? 0 then NotALiteral
      else DecimalLiteral (Decimal sg i (exponentPart t1))
  end.

Definition parseFloat {num} `{JSNumber num} (s : string) : num :=
  match strDecimalLiteral (trimStart s) with
  | NotALiteral => NaN
  | InfinityLiteral sg => Infinity sg
  | DecimalLiteral d => ofDecimal d
  end.

(** *** binary64

    The arithmetic is the kernel's primitive binary64 arithmetic.  The
    value of a numeral is its correctly rounded binary64 value, computed
    with the specification functions of the Standard Library: an integer
    is rounded by [binary_normalize], a proper fraction [m / 10^k] by
    [SFdiv]. *)

Definition float_ofDecimal (d : decimal) : float :=
  match mantissa d with
  | N0 => if neg d then neg_zero else zero
  | Npos p =>
      SF2Prim
        match exponent d with
        | Zneg k => SFdiv prec emax (S754_finite (neg d) p 0)
                                    (S754_finite false (10 ^ k)%positive 0)
        | e => binary_normalize prec emax
                 (cond_Zopp (neg d) (Zpos p * 10 ^ e)) 0 false
        end
  end.

Definition float_toBoolean (x : float) : bool :=
  negb (PrimFloat.is_nan x || PrimFloat.is_zero x).

#[export] Instance float_JSNumber : JSNumber float := {
  add := PrimFloat.add;
  sub := PrimFloat.sub;
  mul := PrimFloat.mul;
  div := PrimFloat.div;
  sqrt := PrimFloat.sqrt;
  NaN := PrimFloat.nan;
  Infinity sg := if sg then PrimFloat.neg_infinity else PrimFloat.infinity;
  ofDecimal := float_ofDecimal;
  toBoolean := float_toBoolean
}.

(** ** Property reads on table objects

    [o[k]] on an object written as a literal finds the object's own
    property [k], or else the member of [Object.prototype] of that name,
    or else nothing.  The own properties are a finite map. *)

Inductive value (A : Type) :=
| undefined
| own (a : A)
| inherited (k : string).
Arguments undefined {A}.
Arguments own {A} a.
Arguments inherited {A} k.

Definition objectPrototype : list string :=
  [ "constructor"; "hasOwnProperty"; "isPrototypeOf"; "propertyIsEnumerable";
    "toLocaleString"; "toString"; "valueOf"; "__proto__";
    "__defineGetter__"; "__defineSetter__"; "__lookupGetter__"; "__lookupSetter__" ].

Definition get {A} (o : gmap string A) (k : string) : value A :=
  match o !! k with
  | Some a => own a
  | None => if bool_decide (k ∈ objectPrototype) then inherited k else undefined
  end.

(** ToBoolean of what a read gave: the members of [Object.prototype] are
    objects, hence truthy; [t] decides an own value. *)
Definition truthy {A} (t : A -> bool) (v : value A) : bool :=
  match v with
  | undefined => false
  | own a => t a
  | inherited _ => true
  end.

(** [v || w]. *)
Definition orElseValue {A} (t : A -> bool) (v w : value A) : value A :=
  if truthy t v then v else w.

(** ToNumber of what a read gave, as arithmetic applies it: [undefined]
    and the members of [Object.prototype] convert to NaN. *)
Definition toNumber {num} `{JSNumber num} (v : value num) : num :=
  match v with own n => n | _ => NaN end.

(** [v.f] used as a number, for [v] an object: a member of
    [Object.prototype] has no such property, and [undefined] converts to
    NaN. *)
Definition field {num A} `{JSNumber num} (f : A -> num) (v : value A) : num :=
  match v with own a => f a | _ => NaN end.

(** How a call ends. *)
Inductive error := TypeError.

Inductive completion (A : Type) :=
| normal (a : A)
| throw (e : error).
Arguments normal {A} a.
Arguments throw {A} e.

Declare Scope js_scope.
Delimit Scope js_scope with js.
Infix "+" := add : js_scope.
Infix "-" := sub : js_scope.
Infix "*" := mul : js_scope.
Infix "/" := div : js_scope.
Infix "||" := orElse : js_scope.

End JS.

Import JS.

(** ** The lookup tables

    [THERMAL_DATA] ('@/constants/thermalData'), [PRODUCTS] and
    [STORAGE_FACTORS] ('@/constants/productData') are not part of the
    source; the function only reads them.  Their shape is the one the reads
    of the source and section 6 of the specification give them. *)

Module Product.
Section Fields.
Context {num : Type}.
Record t := {
  density : num;
  storageEfficiency : num;
  specificHeatAbove : num
}.
End Fields.
Arguments t : clear implicits.
End Product.

Module AirChangeRates.
Section Fields.
Context {num : Type}.
Record t := { coldRoom : num }.
End Fields.
Arguments t : clear implicits.
End AirChangeRates.

Module ThermalData.
Section Fields.
Context {num : Type}.
(** [uFactors[type]] is an object keyed by thickness.  The key of a read
    [[thickness]] is the Number converted to a string; the inner object is
    represented by the read itself, from the Number to the entry, if any. *)
Record t := {
  uFactors : gmap string (num -> option num);
  airChangeRates : AirChangeRates.t num;
  airDensity : num;
  airSpecificHeat : num;
  personHeatLoad : num;
  safetyFactor : num
}.
End Fields.
Arguments t : clear implicits.
End ThermalData.

(** ** The input records (lines 4-32) *)

Module RoomData.
Section Fields.
Context {num : Type}.
Record t := {
  length : string;
  width : string;
  height : string;
  doorWidth : string;
  doorHeight : string;
  doorOpenings : string;
  insulationType : string;
  insulationThickness : num
}.
End Fields.
Arguments t : clear implicits.
End RoomData.

Module ConditionsData.
Record t := {
  externalTemp : string;
  internalTemp : string;
  operatingHours : string;
  pullDownTime : string
}.
End ConditionsData.

Module ProductData.
Record t := {
  productType : string;
  dailyLoad : string;
  incomingTemp : string;
  outgoingTemp : string;
  storageType : string;
  numberOfPeople : string;
  workingHours : string;
  lightingWattage : string;
  equipmentLoad : string
}.
End ProductData.

(** ** The constants of lines 40-60: the inputs after parsing and
    defaulting *)

Module Inputs.
Section Fields.
Context {num : Type}.
Record t := {
  length : num;
  width : num;
  height : num;
  doorWidth : num;
  doorHeight : num;
  doorOpenings : num;
  insulationType : string;
  insulationThickness : num;
  externalTemp : num;
  internalTemp : num;
  operatingHours : num;
  pullDownTime : num;
  dailyLoad : num;
  incomingTemp : num;
  outgoingTemp : num;
  numberOfPeople : num;
  workingHours : num;
  lightingWattage : num;
  equipmentLoad : num
}.
End Fields.
Arguments t : clear implicits.
End Inputs.

(** ** The returned object (lines 129-170) *)

Module Dimensions.
Section Fields.
Context {num : Type}.
Record t := { length : num; width : num; height : num }.
End Fields.
Arguments t : clear implicits.
End Dimensions.

Module DoorDimensions.
Section Fields.
Context {num : Type}.
Record t := { width : num; height : num }.
End Fields.
Arguments t : clear implicits.
End DoorDimensions.

Module Areas.
Section Fields.
Context {num : Type}.
Record t := { wall : num; ceiling : num; floor : num; door : num }.
End Fields.
Arguments t : clear implicits.
End Areas.

Module StorageCapacity.
Section Fields.
Context {num : Type}.
Record t := {
  maximum : num;
  utilization : num;
  storageFactor : value num;
  storageType : string
}.
End Fields.
Arguments t : clear implicits.
End StorageCapacity.

Module Construction.
Section Fields.
Context {num : Type}.
Record t := { type : string; thickness : num; uFactor : num }.
End Fields.
Arguments t : clear implicits.
End Construction.

Module TransmissionLoad.
Section Fields.
Context {num : Type}.
Record t := { walls : num; ceiling : num; floor : num; total : num }.
End Fields.
Arguments t : clear implicits.
End TransmissionLoad.

Module ProductInfo.
Section Fields.
Context {num : Type}.
Record t := {
  type : string;
  mass : num;
  incomingTemp : num;
  outgoingTemp : num;
  properties : value (Product.t num)
}.
End Fields.
Arguments t : clear implicits.
End ProductInfo.

Module ProductLoad.
Section Fields.
Context {num : Type}.
Record t := { sensible : num; latent : num; total : num }.
End Fields.
Arguments t : clear implicits.
End ProductLoad.

Module InternalLoads.
Section Fields.
Context {num : Type}.
Record t := { people : num; lighting : num; equipment : num; total : num }.
End Fields.
Arguments t : clear implicits.
End InternalLoads.

Module LoadResult.
Section Fields.
Context {num : Type}.
Record t := {
  dimensions : Dimensions.t num;
  doorDimensions : DoorDimensions.t num;
  areas : Areas.t num;
  volume : num;
  storageCapacity : StorageCapacity.t num;
  temperatureDifference : num;
  pullDownTime : num;
  construction : Construction.t num;
  transmissionLoad : TransmissionLoad.t num;
  productInfo : ProductInfo.t num;
  productLoad : ProductLoad.t num;
  airChangeRate : num;
  airInfiltrationLoad : num;
  internalLoads : InternalLoads.t num;
  doorLoad : num;
  doorOpenings : num;
  workingHours : num;
  totalLoad : num;
  totalLoadWithSafety : num;
  refrigerationTons : num
}.
End Fields.
Arguments t : clear implicits.
End LoadResult.

(** ** [calculateColdRoomLoad] (lines 34-171) *)

Section Calculation.
Context {num : Type} `{JSNumber num}.
Variable THERMAL_DATA : ThermalData.t num.
Variable PRODUCTS : gmap string (Product.t num).
Variable STORAGE_FACTORS : gmap string num.

Local Open Scope js_scope.

(** Lines 40-60, "Parse input values with cold room defaults".
    [insulationThickness] is a Number already and is not parsed. *)
Definition parseInputs (roomData : RoomData.t num)
  (conditionsData : ConditionsData.t) (productData : ProductData.t)
  : Inputs.t num :=
  {| Inputs.length := parseFloat (RoomData.length roomData) || lit 5.0;
     Inputs.width := parseFloat (RoomData.width roomData) || lit 4.0;
     Inputs.height := parseFloat (RoomData.height roomData) || lit 3.0;
     Inputs.doorWidth := parseFloat (RoomData.doorWidth roomData) || lit 1.2;
     Inputs.doorHeight := parseFloat (RoomData.doorHeight roomData) || lit 2.1;
     Inputs.doorOpenings := parseFloat (RoomData.doorOpenings roomData) || lit 20;
     Inputs.insulationType := orElseString (RoomData.insulationType roomData) "PUF";
     Inputs.insulationThickness := RoomData.insulationThickness roomData || lit 100;

     Inputs.externalTemp := parseFloat (ConditionsData.externalTemp conditionsData) || lit 35;
     Inputs.internalTemp := parseFloat (ConditionsData.internalTemp conditionsData) || lit 4;
     Inputs.operatingHours := parseFloat (ConditionsData.operatingHours conditionsData) || lit 24;
     Inputs.pullDownTime := parseFloat (ConditionsData.pullDownTime conditionsData) || lit 6;

     Inputs.dailyLoad := parseFloat (ProductData.dailyLoad productData) || lit 2000;
     Inputs.incomingTemp := parseFloat (ProductData.incomingTemp productData) || lit 25;
     Inputs.outgoingTemp := parseFloat (ProductData.outgoingTemp productData) || lit 4;
     Inputs.numberOfPeople := parseFloat (ProductData.numberOfPeople productData) || lit 2;
     Inputs.workingHours := parseFloat (ProductData.workingHours productData) || lit 6;
     Inputs.lightingWattage := parseFloat (ProductData.lightingWattage productData) || lit 200;
     Inputs.equipmentLoad := parseFloat (ProductData.equipmentLoad productData) || lit 500 |}.

(** Line 75, [THERMAL_DATA.uFactors[insulationTypeKey]?.[thickness] || 0.25].
    A member of [Object.prototype] has no property named by a Number. *)
Definition lookupUFactor (insulationType : string) (thickness : num) : num :=
  match get (ThermalData.uFactors THERMAL_DATA) insulationType with
  | own byThickness =>
      match byThickness thickness with
      | Some u => u || lit 0.25
      | None => lit 0.25
      end
  | _ => lit 0.25
  end.

(** Line 78, [PRODUCTS[productData.productType] || PRODUCTS["General Food Items"]]. *)
Definition lookupProduct (productType : string) : value (Product.t num) :=
  orElseValue (fun _ => true) (get PRODUCTS productType)
                              (get PRODUCTS "General Food Items").

(** Line 79, [STORAGE_FACTORS[productData.storageType] || STORAGE_FACTORS["Palletized"]]. *)
Definition lookupStorageFactor (storageType : string) : value num :=
  orElseValue toBoolean (get STORAGE_FACTORS storageType)
                        (get STORAGE_FACTORS "Palletized").

(** The body.  The only operation that can throw is the first property
    read on [product] (line 82), when both reads of line 78 gave
    [undefined]; nothing is observable before it.  The two [total] fields
    are written as 0 and assigned on the next line (92, 115); the record
    holds the assigned value. *)
Definition calculateColdRoomLoad (roomData : RoomData.t num)
  (conditionsData : ConditionsData.t) (productData : ProductData.t)
  : completion (LoadResult.t num) :=
  let v := parseInputs roomData conditionsData productData in
  let length := Inputs.length v in
  let width := Inputs.width v in
  let height := Inputs.height v in
  let doorWidth := Inputs.doorWidth v in
  let doorHeight := Inputs.doorHeight v in
  let doorOpenings := Inputs.doorOpenings v in
  let insulationType := Inputs.insulationType v in
  let insulationThickness := Inputs.insulationThickness v in
  let externalTemp := Inputs.externalTemp v in
  let internalTemp := Inputs.internalTemp v in
  let operatingHours := Inputs.operatingHours v in
  let pullDownTime := Inputs.pullDownTime v in
  let dailyLoad := Inputs.dailyLoad v in
  let incomingTemp := Inputs.incomingTemp v in
  let outgoingTemp := Inputs.outgoingTemp v in
  let numberOfPeople := Inputs.numberOfPeople v in
  let workingHours := Inputs.workingHours v in
  let lightingWattage := Inputs.lightingWattage v in
  let equipmentLoad := Inputs.equipmentLoad v in
  (* Calculate areas and volume *)
  let wallArea := lit 2 * (length + width) * height in
  let ceilingArea := length * width in
  let floorArea := length * width in
  let volume := length * width * height in
  let doorArea := doorWidth * doorHeight in
  (* Temperature difference *)
  let temperatureDifference := externalTemp - internalTemp in
  (* Get U-factor from construction data *)
  let uFactor := lookupUFactor insulationType insulationThickness in
  (* Get product and storage data *)
  let product := lookupProduct (ProductData.productType productData) in
  let storageFactor := lookupStorageFactor (ProductData.storageType productData) in
  match product with
  | undefined => throw TypeError
  | _ =>
  (* Calculate storage capacity *)
  let maxStorageCapacity :=
    volume * field Product.density product
           * field Product.storageEfficiency product * toNumber storageFactor in
  let storageUtilization := (dailyLoad / maxStorageCapacity) * lit 100 in
  (* 1. Transmission Load Calculations *)
  let walls := (uFactor * wallArea * temperatureDifference) / lit 1000 in
  let ceiling := (uFactor * ceilingArea * temperatureDifference) / lit 1000 in
  let floor := (uFactor * floorArea * temperatureDifference) / lit 1000 in
  let transmissionLoad :=
    {| TransmissionLoad.walls := walls;
       TransmissionLoad.ceiling := ceiling;
       TransmissionLoad.floor := floor;
       TransmissionLoad.total := walls + ceiling + floor |} in
  (* 2. Product Load Calculations: sensible heat only *)
  let sensibleHeat :=
    (dailyLoad * field Product.specificHeatAbove product * (incomingTemp - outgoingTemp))
    / (pullDownTime * lit 3.6) in
  let productLoad :=
    {| ProductLoad.sensible := sensibleHeat;
       ProductLoad.latent := lit 0;
       ProductLoad.total := sensibleHeat |} in
  (* 3. Air Infiltration Load *)
  let airChangeRate := AirChangeRates.coldRoom (ThermalData.airChangeRates THERMAL_DATA) in
  let airInfiltrationLoad :=
    (volume * ThermalData.airDensity THERMAL_DATA
            * ThermalData.airSpecificHeat THERMAL_DATA
            * temperatureDifference * airChangeRate) / lit 3.6 in
  (* 4. Internal Loads *)
  let people :=
    numberOfPeople * ThermalData.personHeatLoad THERMAL_DATA * (workingHours / lit 24) in
  let lighting := (lightingWattage * (operatingHours / lit 24)) / lit 1000 in
  let equipment := equipmentLoad / lit 1000 in
  let internalLoads :=
    {| InternalLoads.people := people;
       InternalLoads.lighting := lighting;
       InternalLoads.equipment := equipment;
       InternalLoads.total := people + lighting + equipment |} in
  (* 5. Door Opening Load *)
  let doorLoad :=
    (doorOpenings * doorArea * lit 3.0 * sqrt temperatureDifference)
    / lit 24 / lit 1000 in
  (* 6. Total Load Calculation *)
  let totalLoad :=
    TransmissionLoad.total transmissionLoad + ProductLoad.total productLoad
    + airInfiltrationLoad + InternalLoads.total internalLoads + doorLoad in
  (* 7. Apply Safety Factor *)
  let totalLoadWithSafety := totalLoad * ThermalData.safetyFactor THERMAL_DATA in
  (* 8. Convert to Tons of Refrigeration (1 TR = 3.517 kW) *)
  let refrigerationTons := totalLoadWithSafety / lit 3.517 in
  normal
    {| LoadResult.dimensions :=
         {| Dimensions.length := length; Dimensions.width := width;
            Dimensions.height := height |};
       LoadResult.doorDimensions :=
         {| DoorDimensions.width := doorWidth; DoorDimensions.height := doorHeight |};
       LoadResult.areas :=
         {| Areas.wall := wallArea; Areas.ceiling := ceilingArea;
            Areas.floor := floorArea; Areas.door := doorArea |};
       LoadResult.volume := volume;
       LoadResult.storageCapacity :=
         {| StorageCapacity.maximum := maxStorageCapacity;
            StorageCapacity.utilization := storageUtilization;
            StorageCapacity.storageFactor := storageFactor;
            StorageCapacity.storageType := ProductData.storageType productData |};
       LoadResult.temperatureDifference := temperatureDifference;
       LoadResult.pullDownTime := pullDownTime;
       LoadResult.construction :=
         {| Construction.type := insulationType;
            Construction.thickness := insulationThickness;
            Construction.uFactor := uFactor |};
       LoadResult.transmissionLoad := transmissionLoad;
       LoadResult.productInfo :=
         {| ProductInfo.type := ProductData.productType productData;
            ProductInfo.mass := dailyLoad;
            ProductInfo.incomingTemp := incomingTemp;
            ProductInfo.outgoingTemp := outgoingTemp;
            ProductInfo.properties := product |};
       LoadResult.productLoad := productLoad;
       LoadResult.airChangeRate := airChangeRate;
       LoadResult.airInfiltrationLoad := airInfiltrationLoad;
       LoadResult.internalLoads := internalLoads;
       LoadResult.doorLoad := doorLoad;
       LoadResult.doorOpenings := doorOpenings;
       LoadResult.workingHours := workingHours;
       LoadResult.totalLoad := totalLoad;
       LoadResult.totalLoadWithSafety := totalLoadWithSafety;
       LoadResult.refrigerationTons := refrigerationTons |}
  end.

End Calculation.

(** ** Example tables and calls

    Tables of the documented shape, to run the function on.  The values
    are illustrative; the constants are written as the numerals a table
    module would contain. *)

Module Sample.
Section Tables.
Context {num : Type} `{JSNumber num}.
Variable PUF : num -> option num.

Definition thermalData : ThermalData.t num :=
  {| ThermalData.uFactors := {[ "PUF" := PUF ]};
     ThermalData.airChangeRates := {| AirChangeRates.coldRoom := lit 0.4 |};
     ThermalData.airDensity := lit 1.2;
     ThermalData.airSpecificHeat := lit 1.005;
     ThermalData.personHeatLoad := lit 0.27;
     ThermalData.safetyFactor := lit 1.1 |}.

Definition products : gmap string (Product.t num) :=
  {[ "General Food Items" :=
       {| Product.density := lit 500; Product.storageEfficiency := lit 0.65;
          Product.specificHeatAbove := lit 3.4 |};
     "Dairy" :=
       {| Product.density := lit 600; Product.storageEfficiency := lit 0.7;
          Product.specificHeatAbove := lit 3.9 |} ]}.

Definition storageFactors : gmap string num :=
  {[ "Palletized" := lit 0.7; "Bulk" := lit 0.9 ]}.

(** A room given by three of its fields, the rest left empty. *)
Definition room (height doorOpenings : string) (insulationThickness : num)
  : RoomData.t num :=
  {| RoomData.length := ""; RoomData.width := ""; RoomData.height := height;
     RoomData.doorWidth := ""; RoomData.doorHeight := "";
     RoomData.doorOpenings := doorOpenings;
     RoomData.insulationType := "";
     RoomData.insulationThickness := insulationThickness |}.

End Tables.

(** [{ 50: 0.4, 100: 0.22, 150: 0.15 }]. *)
Definition PUF_binary64 (thickness : float) : option float :=
  if (thickness =? 50)%float then Some (lit 0.4)
  else if (thickness =? 100)%float then Some (lit 0.22)
  else if (thickness =? 150)%float then Some (lit 0.15)
  else None.

(** The scenario of section 8 of the specification. *)
Definition scenarioRoom : RoomData.t float :=
  {| RoomData.length := "6"; RoomData.width := "5"; RoomData.height := "3";
     RoomData.doorWidth := ""; RoomData.doorHeight := ""; RoomData.doorOpenings := "";
     RoomData.insulationType := "PUF"; RoomData.insulationThickness := 100%float |}.

Definition conditions (externalTemp : string) : ConditionsData.t :=
  {| ConditionsData.externalTemp := externalTemp; ConditionsData.internalTemp := "4";
     ConditionsData.operatingHours := ""; ConditionsData.pullDownTime := "6" |}.

Definition product (productType : string) : ProductData.t :=
  {| ProductData.productType := productType; ProductData.dailyLoad := "2500";
     ProductData.incomingTemp := "25"; ProductData.outgoingTemp := "4";
     ProductData.storageType := ""; ProductData.numberOfPeople := "";
     ProductData.workingHours := ""; ProductData.lightingWattage := "";
     ProductData.equipmentLoad := "" |}.

(** Every field left out. *)
Definition emptyConditions : ConditionsData.t :=
  {| ConditionsData.externalTemp := ""; ConditionsData.internalTemp := "";
     ConditionsData.operatingHours := ""; ConditionsData.pullDownTime := "" |}.

Definition emptyProduct : ProductData.t :=
  {| ProductData.productType := ""; ProductData.dailyLoad := "";
     ProductData.incomingTemp := ""; ProductData.outgoingTemp := "";
     ProductData.storageType := ""; ProductData.numberOfPeople := "";
     ProductData.workingHours := ""; ProductData.lightingWattage := "";
     ProductData.equipmentLoad := "" |}.

(** The tables and the call in binary64. *)
Definition THERMAL_DATA : ThermalData.t float := thermalData PUF_binary64.
Definition PRODUCTS : gmap string (Product.t float) := products.
Definition STORAGE_FACTORS : gmap string float := storageFactors.

Definition calculate := calculateColdRoomLoad THERMAL_DATA PRODUCTS STORAGE_FACTORS.

End Sample.

(** ** binary64 rounding, over the standard library's specification

    [SpecFloat] gives every operation of binary64 as a function on
    [spec_float]; [FloatAxioms] states that the primitive operations are
    those functions.  The definitions below name the real number behind a
    mantissa and an exponent, the place of a real in a cell of a given
    exponent, and the order in which operands that are not negative are
    compared. *)

Module Round.

(** Powers of two. *)
Definition bpow (e : Z) : R := powerRZ 2 e.

Definition F2R (m e : Z) : R := (IZR m * bpow e)%R.

(** The exponent of the format for a number of [e] digits before the
    point. *)
Abbreviation fexp := (SpecFloat.fexp prec emax).

(** [x] lies in the cell [[m, m+1) * 2^e], in the half and at the place
    the two flags say. *)
Definition inb (x : R) (mrs : shr_record) (e : Z) : Prop :=
  let m := IZR (shr_m mrs) in
  let B := bpow e in
  ((if shr_r mrs then (m + / 2) * B <= x < (m + 1) * B
    else m * B <= x < (m + / 2) * B) /\
   (shr_s mrs = false <-> x = (m + (if shr_r mrs then / 2 else 0)) * B))%R.

(** [x] is where the location [l] says in the cell of [m] at [e]. *)
Definition located (x : R) (m e : Z) (l : location) : Prop :=
  inb x (shr_record_of_loc m l) e.

(** The float made of a mantissa and an exponent of the format. *)
Definition mk (sx : bool) (m e : Z) : spec_float :=
  match m with
  | Z0 => S754_zero sx
  | Zpos p => if e <=? 971 then S754_finite sx p e else S754_infinity sx
  | Zneg _ => S754_nan
  end.

(** Rounding to nearest, ties to even, of the cell of [m] with its flags,
    and the mantissa and exponent once a carry is absorbed. *)
Definition rnd (mrs : shr_record) : Z :=
  round_nearest_even (shr_m mrs) (loc_of_shr_record mrs).

Definition out (mrs : shr_record) (E : Z) : Z * Z :=
  if rnd mrs =? 2 ^ 53 then (2 ^ 52, E + 1) else (rnd mrs, E).

(** Mantissa and exponent, compared as numbers of the format are. *)
Definition lexle (k1 k2 : Z * Z) : Prop :=
  snd k1 < snd k2 \/ (snd k1 = snd k2 /\ fst k1 <= fst k2).

Definition canonical (m E : Z) : Prop :=
  0 <= m < 2 ^ 53 /\ (2 ^ 52 <= m \/ E = -1074) /\ -1074 <= E.

(** A number of the format together with a real it is the rounding
    of. *)
Definition rounds_to (v : R) (f : spec_float) : Prop :=
  exists m e l,
    0 <= m /\ located v m e l /\ e <= fexp (Zdigits2 m + e) /\
    f = binary_round_aux prec emax false m e l.

(** Zero of either sign, a positive number or plus infinity. *)
Definition nonneg (f : spec_float) : Prop :=
  match f with
  | S754_zero _ => True
  | S754_finite s _ _ | S754_infinity s => s = false
  | S754_nan => False
  end.

(** The value of a finite number or a zero. *)
Definition B2R (f : spec_float) : R :=
  match f with
  | S754_finite s m e => F2R (cond_Zopp s (Zpos m)) e
  | _ => 0%R
  end.

Definition finite_class (f : spec_float) : bool :=
  match f with
  | S754_zero _ | S754_finite _ _ _ => true
  | _ => false
  end.

Definition positive_finite (f : spec_float) : bool :=
  match f with
  | S754_finite false _ _ => true
  | _ => false
  end.

Definition valid (f : spec_float) : Prop := SpecFloat.valid_binary prec emax f = true.

(** [x] is at most [y] among the numbers that are not negative, or one
    of them is not a number. *)
Definition vle (x y : spec_float) : Prop :=
  x = S754_nan \/ y = S754_nan \/ (nonneg x /\ nonneg y /\ SFleb x y = true).

(** The same on the numbers of the language. *)
Definition fle (x y : float) : Prop := vle (Prim2SF x) (Prim2SF y).

End Round.

(** ** Vocabulary of the statements *)

(** The fallback entry of line 78 is a key of the table.  The source
    reads it by a literal key, [PRODUCTS["General Food Items"]]. *)
Definition hasGeneralFoodItems {num} (PRODUCTS : gmap string (Product.t num)) : Prop :=
  is_Some (PRODUCTS !! "General Food Items").

(** The same call with another [productType], another [externalTemp]. *)
Definition withProductType (productType : string) (p : ProductData.t) : ProductData.t :=
  {| ProductData.productType := productType;
     ProductData.dailyLoad := ProductData.dailyLoad p;
     ProductData.incomingTemp := ProductData.incomingTemp p;
     ProductData.outgoingTemp := ProductData.outgoingTemp p;
     ProductData.storageType := ProductData.storageType p;
     ProductData.numberOfPeople := ProductData.numberOfPeople p;
     ProductData.workingHours := ProductData.workingHours p;
     ProductData.lightingWattage := ProductData.lightingWattage p;
     ProductData.equipmentLoad := ProductData.equipmentLoad p |}.

Definition withExternalTemp (externalTemp : string) (c : ConditionsData.t) : ConditionsData.t :=
  {| ConditionsData.externalTemp := externalTemp;
     ConditionsData.internalTemp := ConditionsData.internalTemp c;
     ConditionsData.operatingHours := ConditionsData.operatingHours c;
     ConditionsData.pullDownTime := ConditionsData.pullDownTime c |}.

(** The same result with another [productInfo.type]. *)
Definition withProductInfoType {num} (type : string) (r : LoadResult.t num) : LoadResult.t num :=
  let info := LoadResult.productInfo r in
  {| LoadResult.dimensions := LoadResult.dimensions r;
     LoadResult.doorDimensions := LoadResult.doorDimensions r;
     LoadResult.areas := LoadResult.areas r;
     LoadResult.volume := LoadResult.volume r;
     LoadResult.storageCapacity := LoadResult.storageCapacity r;
     LoadResult.temperatureDifference := LoadResult.temperatureDifference r;
     LoadResult.pullDownTime := LoadResult.pullDownTime r;
     LoadResult.construction := LoadResult.construction r;
     LoadResult.transmissionLoad := LoadResult.transmissionLoad r;
     LoadResult.productInfo :=
       {| ProductInfo.type := type;
          ProductInfo.mass := ProductInfo.mass info;
          ProductInfo.incomingTemp := ProductInfo.incomingTemp info;
          ProductInfo.outgoingTemp := ProductInfo.outgoingTemp info;
          ProductInfo.properties := ProductInfo.properties info |};
     LoadResult.productLoad := LoadResult.productLoad r;
     LoadResult.airChangeRate := LoadResult.airChangeRate r;
     LoadResult.airInfiltrationLoad := LoadResult.airInfiltrationLoad r;
     LoadResult.internalLoads := LoadResult.internalLoads r;
     LoadResult.doorLoad := LoadResult.doorLoad r;
     LoadResult.doorOpenings := LoadResult.doorOpenings r;
     LoadResult.workingHours := LoadResult.workingHours r;
     LoadResult.totalLoad := LoadResult.totalLoad r;
     LoadResult.totalLoadWithSafety := LoadResult.totalLoadWithSafety r;
     LoadResult.refrigerationTons := LoadResult.refrigerationTons r |}.

(** What [raw || default] gives in binary64: the default when [raw] is NaN
    or a zero of either sign, and [raw] itself otherwise, the infinities
    included. *)
Definition defaulted (raw default v : float) : Prop :=
  (PrimFloat.is_nan raw = true -> v = default) /\
  (PrimFloat.is_zero raw = true -> v = default) /\
  (PrimFloat.is_nan raw = false -> PrimFloat.is_zero raw = false -> v = raw).

(** The same for a field that is parsed first; text with no numeric
    prefix is one way to NaN. *)
Definition parsedOrDefault (text : string) (default v : float) : Prop :=
  (strDecimalLiteral (trimStart text) = NotALiteral -> v = default) /\
  defaulted (parseFloat text) default v.

(** A numeric field that is left out or cannot be parsed. *)
Definition unparseable (text : string) : Prop :=
  strDecimalLiteral (trimStart text) = NotALiteral.

(** Every field of the three records left out or invalid: no numeric
    field parses, the thickness is NaN or zero, the insulation type is
    empty. *)
Definition nothingUsable (roomData : RoomData.t float)
  (conditionsData : ConditionsData.t) (productData : ProductData.t) : Prop :=
  unparseable (RoomData.length roomData) /\
  unparseable (RoomData.width roomData) /\
  unparseable (RoomData.height roomData) /\
  unparseable (RoomData.doorWidth roomData) /\
  unparseable (RoomData.doorHeight roomData) /\
  unparseable (RoomData.doorOpenings roomData) /\
  RoomData.insulationType roomData = "" /\
  toBoolean (RoomData.insulationThickness roomData) = false /\
  unparseable (ConditionsData.externalTemp conditionsData) /\
  unparseable (ConditionsData.internalTemp conditionsData) /\
  unparseable (ConditionsData.operatingHours conditionsData) /\
  unparseable (ConditionsData.pullDownTime conditionsData) /\
  unparseable (ProductData.dailyLoad productData) /\
  unparseable (ProductData.incomingTemp productData) /\
  unparseable (ProductData.outgoingTemp productData) /\
  unparseable (ProductData.numberOfPeople productData) /\
  unparseable (ProductData.workingHours productData) /\
  unparseable (ProductData.lightingWattage productData) /\
  unparseable (ProductData.equipmentLoad productData).

(** The statement "with a positive temperature difference, a strictly
    higher external temperature gives strictly higher transmission,
    infiltration and door loads, all else fixed", read in binary64 with
    the comparisons of the language. *)
Definition strictlyIncreasingInExternalTemp
  (THERMAL_DATA : ThermalData.t float) (PRODUCTS : gmap string (Product.t float))
  (STORAGE_FACTORS : gmap string float) : Prop :=
  forall roomData conditionsData productData warmer r r',
    let calculate := calculateColdRoomLoad THERMAL_DATA PRODUCTS STORAGE_FACTORS in
    let conditionsData' := withExternalTemp warmer conditionsData in
    calculate roomData conditionsData productData = normal r ->
    calculate roomData conditionsData' productData = normal r' ->
    PrimFloat.ltb (Inputs.externalTemp (parseInputs roomData conditionsData productData))
                  (Inputs.externalTemp (parseInputs roomData conditionsData' productData))
      = true ->
    PrimFloat.ltb 0 (LoadResult.temperatureDifference r) = true ->
    PrimFloat.ltb (TransmissionLoad.total (LoadResult.transmissionLoad r))
                  (TransmissionLoad.total (LoadResult.transmissionLoad r')) = true /\
    PrimFloat.ltb (LoadResult.airInfiltrationLoad r)
                  (LoadResult.airInfiltrationLoad r') = true /\
    PrimFloat.ltb (LoadResult.doorLoad r) (LoadResult.doorLoad r') = true.

(** [x] is not below [bound] under the comparison of the language. NaN
    is below nothing. *)
Definition notBelow (bound x : float) : Prop := PrimFloat.ltb x bound = false.

Definition notNegative (x : float) : Prop := notBelow 0%float x.

(** No dimension and no constant of the three loads is negative. *)
Definition nowhereNegative (THERMAL_DATA : ThermalData.t float) (v : Inputs.t float) : Prop :=
  notNegative (Inputs.length v) /\
  notNegative (Inputs.width v) /\
  notNegative (Inputs.height v) /\
  notNegative (Inputs.doorWidth v) /\
  notNegative (Inputs.doorHeight v) /\
  notNegative (Inputs.doorOpenings v) /\
  notNegative (lookupUFactor THERMAL_DATA (Inputs.insulationType v)
                 (Inputs.insulationThickness v)) /\
  notNegative (ThermalData.airDensity THERMAL_DATA) /\
  notNegative (ThermalData.airSpecificHeat THERMAL_DATA) /\
  notNegative (AirChangeRates.coldRoom (ThermalData.airChangeRates THERMAL_DATA)).

(** [x] is truthy: neither NaN nor a zero. *)
Definition neitherZeroNorNaN (x : float) : Prop :=
  PrimFloat.is_nan x = false /\ PrimFloat.is_zero x = false.

Definition isInfinite (x : float) : Prop :=
  x = PrimFloat.infinity \/ x = PrimFloat.neg_infinity.



(** The same call with another [storageType]. *)
Definition withStorageType (storageType : string) (p : ProductData.t) : ProductData.t :=
  {| ProductData.productType := ProductData.productType p;
     ProductData.dailyLoad := ProductData.dailyLoad p;
     ProductData.incomingTemp := ProductData.incomingTemp p;
     ProductData.outgoingTemp := ProductData.outgoingTemp p;
     ProductData.storageType := storageType;
     ProductData.numberOfPeople := ProductData.numberOfPeople p;
     ProductData.workingHours := ProductData.workingHours p;
     ProductData.lightingWattage := ProductData.lightingWattage p;
     ProductData.equipmentLoad := ProductData.equipmentLoad p |}.

(** The same result with another [storageCapacity]. *)
Definition withStorageCapacity {num} (c : StorageCapacity.t num) (r : LoadResult.t num)
  : LoadResult.t num :=
  {| LoadResult.dimensions := LoadResult.dimensions r;
     LoadResult.doorDimensions := LoadResult.doorDimensions r;
     LoadResult.areas := LoadResult.areas r;
     LoadResult.volume := LoadResult.volume r;
     LoadResult.storageCapacity := c;
     LoadResult.temperatureDifference := LoadResult.temperatureDifference r;
     LoadResult.pullDownTime := LoadResult.pullDownTime r;
     LoadResult.construction := LoadResult.construction r;
     LoadResult.transmissionLoad := LoadResult.transmissionLoad r;
     LoadResult.productInfo := LoadResult.productInfo r;
     LoadResult.productLoad := LoadResult.productLoad r;
     LoadResult.airChangeRate := LoadResult.airChangeRate r;
     LoadResult.airInfiltrationLoad := LoadResult.airInfiltrationLoad r;
     LoadResult.internalLoads := LoadResult.internalLoads r;
     LoadResult.doorLoad := LoadResult.doorLoad r;
     LoadResult.doorOpenings := LoadResult.doorOpenings r;
     LoadResult.workingHours := LoadResult.workingHours r;
     LoadResult.totalLoad := LoadResult.totalLoad r;
     LoadResult.totalLoadWithSafety := LoadResult.totalLoadWithSafety r;
     LoadResult.refrigerationTons := LoadResult.refrigerationTons r |}.

(** No input of any of the five loads is negative: the dimensions and
    constants of [nowhereNegative], the two temperature differences, the
    product mass and specific heat, the occupancy, lighting and
    equipment figures and the safety factor; and the pull-down time is
    above zero. *)
Definition noNegativeInput (THERMAL_DATA : ThermalData.t float)
  (PRODUCTS : gmap string (Product.t float)) (productType : string)
  (v : Inputs.t float) : Prop :=
  nowhereNegative THERMAL_DATA v /\
  notNegative (JS.sub (Inputs.externalTemp v) (Inputs.internalTemp v)) /\
  notNegative (Inputs.dailyLoad v) /\
  notNegative (field Product.specificHeatAbove (lookupProduct PRODUCTS productType)) /\
  notNegative (JS.sub (Inputs.incomingTemp v) (Inputs.outgoingTemp v)) /\
  PrimFloat.ltb 0 (Inputs.pullDownTime v) = true /\
  notNegative (Inputs.numberOfPeople v) /\
  notNegative (ThermalData.personHeatLoad THERMAL_DATA) /\
  notNegative (Inputs.workingHours v) /\
  notNegative (Inputs.lightingWattage v) /\
  notNegative (Inputs.operatingHours v) /\
  notNegative (Inputs.equipmentLoad v) /\
  notNegative (ThermalData.safetyFactor THERMAL_DATA).

(** The inputs [v'] of a second call are at least the inputs [v] of a
    first one: each dimension, the U-factor, the two temperature
    differences, the product mass and the occupancy, lighting and
    equipment figures; the pull-down time is the same. *)
Definition noSmallerInput (THERMAL_DATA : ThermalData.t float) (v v' : Inputs.t float) : Prop :=
  PrimFloat.leb (Inputs.length v) (Inputs.length v') = true /\
  PrimFloat.leb (Inputs.width v) (Inputs.width v') = true /\
  PrimFloat.leb (Inputs.height v) (Inputs.height v') = true /\
  PrimFloat.leb (Inputs.doorWidth v) (Inputs.doorWidth v') = true /\
  PrimFloat.leb (Inputs.doorHeight v) (Inputs.doorHeight v') = true /\
  PrimFloat.leb (Inputs.doorOpenings v) (Inputs.doorOpenings v') = true /\
  PrimFloat.leb
    (lookupUFactor THERMAL_DATA (Inputs.insulationType v) (Inputs.insulationThickness v))
    (lookupUFactor THERMAL_DATA (Inputs.insulationType v') (Inputs.insulationThickness v'))
    = true /\
  PrimFloat.leb (JS.sub (Inputs.externalTemp v) (Inputs.internalTemp v))
                (JS.sub (Inputs.externalTemp v') (Inputs.internalTemp v')) = true /\
  PrimFloat.leb (Inputs.dailyLoad v) (Inputs.dailyLoad v') = true /\
  PrimFloat.leb (JS.sub (Inputs.incomingTemp v) (Inputs.outgoingTemp v))
                (JS.sub (Inputs.incomingTemp v') (Inputs.outgoingTemp v')) = true /\
  Inputs.pullDownTime v' = Inputs.pullDownTime v /\
  PrimFloat.leb (Inputs.numberOfPeople v) (Inputs.numberOfPeople v') = true /\
  PrimFloat.leb (Inputs.workingHours v) (Inputs.workingHours v') = true /\
  PrimFloat.leb (Inputs.lightingWattage v) (Inputs.lightingWattage v') = true /\
  PrimFloat.leb (Inputs.operatingHours v) (Inputs.operatingHours v') = true /\
  PrimFloat.leb (Inputs.equipmentLoad v) (Inputs.equipmentLoad v') = true.

(** A products table whose fallback entry has no density. *)
Definition weightlessProducts : gmap string (Product.t float) :=
  {[ "General Food Items" :=
       {| Product.density := lit 0; Product.storageEfficiency := lit 0.65;
          Product.specificHeatAbove := lit 3.4 |} ]}.

(** ** Properties that hold for every arithmetic *)

Section Properties.
Context {num : Type} `{JSNumber num}.
Variable THERMAL_DATA : ThermalData.t num.
Variable PRODUCTS : gmap string (Product.t num).
Variable STORAGE_FACTORS : gmap string num.

Local Open Scope js_scope.

Abbreviation calculate := (calculateColdRoomLoad THERMAL_DATA PRODUCTS STORAGE_FACTORS).

Lemma get_own {A} (o : gmap string A) k a : o !! k = Some a -> get o k = own a.
Proof. intros E. unfold get. now rewrite E. Qed.

Lemma get_undefined {A} (o : gmap string A) k :
  o !! k = None -> k ∉ objectPrototype -> get o k = undefined.
Proof.
  intros E Hk. unfold get. rewrite E.
  rewrite bool_decide_eq_false_2; auto.
Qed.

Lemma get_not_own {A} (o : gmap string A) k :
  o !! k = None -> get o k = undefined \/ get o k = inherited k.
Proof.
  intros E. unfold get. rewrite E.
  destruct (bool_decide (k ∈ objectPrototype)); auto.
Qed.

Lemma lookupProduct_defined productType :
  hasGeneralFoodItems PRODUCTS -> lookupProduct PRODUCTS productType <> undefined.
Proof.
  intros [p Hp]. unfold lookupProduct, orElseValue.
  destruct (get PRODUCTS productType) as [|a|k] eqn:E; simpl; try discriminate.
  now rewrite (get_own _ _ _ Hp).
Qed.

(** A miss that is not inherited either resolves to the fallback entry. *)
Lemma lookupProduct_miss productType :
  get PRODUCTS productType = undefined ->
  lookupProduct PRODUCTS productType = lookupProduct PRODUCTS "General Food Items".
Proof.
  intros E. unfold lookupProduct, orElseValue. rewrite E. simpl.
  now destruct (get PRODUCTS "General Food Items").
Qed.

(** The call returns exactly when line 78 resolved a product. *)
Lemma calculate_returns roomData conditionsData productData :
  lookupProduct PRODUCTS (ProductData.productType productData) <> undefined ->
  exists r, calculate roomData conditionsData productData = normal r.
Proof.
  intros Hp. unfold calculateColdRoomLoad.
  destruct (lookupProduct PRODUCTS (ProductData.productType productData));
    [ congruence | eexists; reflexivity .. ].
Qed.

Lemma calculate_throws roomData conditionsData productData :
  lookupProduct PRODUCTS (ProductData.productType productData) = undefined ->
  calculate roomData conditionsData productData = throw TypeError.
Proof. intros Hp. unfold calculateColdRoomLoad. now rewrite Hp. Qed.

(** Every field of a returned result, read off the body. *)
Ltac returned H :=
  unfold calculateColdRoomLoad in H;
  match type of H with
  | context [match ?p with undefined => _ | _ => _ end] => destruct p
  end;
  [ discriminate H | injection H as <- .. ].

Lemma returns_with_fallback roomData conditionsData productData :
  hasGeneralFoodItems PRODUCTS ->
  exists r, calculate roomData conditionsData productData = normal r.
Proof. intros Hg. apply calculate_returns, lookupProduct_defined, Hg. Qed.

Ltac result_of Hg r Hr :=
  match goal with
  | |- exists _, calculateColdRoomLoad _ _ _ ?a ?b ?c = _ /\ _ =>
      destruct (returns_with_fallback a b c Hg) as [r Hr];
      exists r; split; [ exact Hr | ]
  end.

(** How the aggregate figures of a returned result are made of its other
    figures (lines 118-127). *)
Lemma aggregates_of_result roomData conditionsData productData r :
  calculate roomData conditionsData productData = normal r ->
  LoadResult.doorLoad r =
    (LoadResult.doorOpenings r * Areas.door (LoadResult.areas r) * lit 3.0
     * sqrt (LoadResult.temperatureDifference r)) / lit 24 / lit 1000 /\
  LoadResult.totalLoad r =
    TransmissionLoad.total (LoadResult.transmissionLoad r)
    + ProductLoad.total (LoadResult.productLoad r)
    + LoadResult.airInfiltrationLoad r
    + InternalLoads.total (LoadResult.internalLoads r)
    + LoadResult.doorLoad r /\
  LoadResult.totalLoadWithSafety r =
    LoadResult.totalLoad r * ThermalData.safetyFactor THERMAL_DATA /\
  LoadResult.refrigerationTons r = LoadResult.totalLoadWithSafety r / lit 3.517.
Proof. intros Hr. returned Hr; repeat split; reflexivity. Qed.

(** C1. [totalLoad] is the sum, taken left to right, of the five category
    totals of the same result. *)
Theorem totalLoad_is_sum_of_categories :
  hasGeneralFoodItems PRODUCTS ->
  forall roomData conditionsData productData,
  exists r,
    calculate roomData conditionsData productData = normal r /\
    LoadResult.totalLoad r =
      TransmissionLoad.total (LoadResult.transmissionLoad r)
      + ProductLoad.total (LoadResult.productLoad r)
      + LoadResult.airInfiltrationLoad r
      + InternalLoads.total (LoadResult.internalLoads r)
      + LoadResult.doorLoad r.
Proof.
  intros Hg roomData conditionsData productData.
  result_of Hg r Hr.
  apply (aggregates_of_result _ _ _ _ Hr).
Qed.

(** C2. [totalLoadWithSafety] is [totalLoad] times the table's
    [safetyFactor], and [refrigerationTons] is [totalLoadWithSafety]
    divided by 3.517. *)
Theorem safety_and_tons_identities :
  hasGeneralFoodItems PRODUCTS ->
  forall roomData conditionsData productData,
  exists r,
    calculate roomData conditionsData productData = normal r /\
    LoadResult.totalLoadWithSafety r =
      LoadResult.totalLoad r * ThermalData.safetyFactor THERMAL_DATA /\
    LoadResult.refrigerationTons r =
      LoadResult.totalLoadWithSafety r / lit 3.517.
Proof.
  intros Hg roomData conditionsData productData.
  result_of Hg r Hr.
  destruct (aggregates_of_result _ _ _ _ Hr) as (_ & _ & Hsafety & Htons).
  split; assumption.
Qed.

(** C7. The product load is sensible heat only: [latent] is the literal
    0, [sensible] is the formula of line 96 over the parsed inputs and the
    resolved product, and [total] is [sensible]. *)
Theorem productLoad_is_sensible_heat :
  hasGeneralFoodItems PRODUCTS ->
  forall roomData conditionsData productData,
  exists r,
    calculate roomData conditionsData productData = normal r /\
    let v := parseInputs roomData conditionsData productData in
    let product := ProductInfo.properties (LoadResult.productInfo r) in
    let productLoad := LoadResult.productLoad r in
    product = lookupProduct PRODUCTS (ProductData.productType productData) /\
    ProductLoad.latent productLoad = lit 0 /\
    ProductLoad.sensible productLoad =
      (Inputs.dailyLoad v * field Product.specificHeatAbove product
       * (Inputs.incomingTemp v - Inputs.outgoingTemp v))
      / (Inputs.pullDownTime v * lit 3.6) /\
    ProductLoad.total productLoad = ProductLoad.sensible productLoad.
Proof.
  intros Hg roomData conditionsData productData.
  result_of Hg r Hr.
  unfold calculateColdRoomLoad in Hr.
  destruct (lookupProduct PRODUCTS (ProductData.productType productData)) eqn:E;
    [ discriminate Hr | injection Hr as <- .. ]; cbn; auto.
Qed.

(** C10. The result carries the two keys as they were passed, whatever
    the lookups made of them: when a key is missing from its table the
    fallback record is the one used and reported, and the key reported is
    still the raw one. *)
Theorem raw_keys_are_echoed :
  hasGeneralFoodItems PRODUCTS ->
  forall roomData conditionsData productData,
  exists r,
    calculate roomData conditionsData productData = normal r /\
    let storage := LoadResult.storageCapacity r in
    let info := LoadResult.productInfo r in
    StorageCapacity.storageType storage = ProductData.storageType productData /\
    ProductInfo.type info = ProductData.productType productData /\
    (get PRODUCTS (ProductData.productType productData) = undefined ->
     ProductInfo.properties info = get PRODUCTS "General Food Items") /\
    (get STORAGE_FACTORS (ProductData.storageType productData) = undefined ->
     StorageCapacity.storageFactor storage = get STORAGE_FACTORS "Palletized").
Proof.
  intros Hg roomData conditionsData productData.
  result_of Hg r Hr.
  unfold calculateColdRoomLoad in Hr.
  destruct (lookupProduct PRODUCTS (ProductData.productType productData)) eqn:E;
    [ discriminate Hr | injection Hr as <- .. ]; cbn;
    (repeat split; [ intros U; rewrite <- E | intros U ]);
    unfold lookupProduct, lookupStorageFactor, orElseValue; rewrite U; reflexivity.
Qed.

(** C4, amended. A [productType] that is neither a key of the products
    table nor the name of a member of [Object.prototype] gives the result of
    the call with "General Food Items" in every field but one:
    [productInfo.type], which is the key as passed. *)
Theorem unknown_productType_falls_back :
  hasGeneralFoodItems PRODUCTS ->
  forall roomData conditionsData productData,
  PRODUCTS !! ProductData.productType productData = None ->
  ProductData.productType productData ∉ objectPrototype ->
  exists r',
    calculate roomData conditionsData
      (withProductType "General Food Items" productData) = normal r' /\
    calculate roomData conditionsData productData =
      normal (withProductInfoType (ProductData.productType productData) r').
Proof.
  intros Hg roomData conditionsData productData Hkey Hproto.
  destruct (returns_with_fallback roomData conditionsData
              (withProductType "General Food Items" productData) Hg) as [r' Hr'].
  exists r'. split; [ exact Hr' | ].
  pose proof (lookupProduct_miss _ (get_undefined _ _ Hkey Hproto)) as Hmiss.
  unfold calculateColdRoomLoad in *.
  change (ProductData.productType (withProductType "General Food Items" productData))
    with "General Food Items" in Hr'.
  rewrite Hmiss.
  destruct (lookupProduct PRODUCTS "General Food Items");
    [ discriminate Hr' | injection Hr' as <- .. ]; reflexivity.
Qed.

End Properties.

(** ** binary64: the defaulting rule *)

Section Binary64.
Local Open Scope js_scope.

Lemma float_neq (x y : float) : PrimFloat.Leibniz.eqb x y = false -> x <> y.
Proof.
  intros Hb Hxy. apply FloatAxioms.Leibniz.eqb_spec in Hxy. congruence.
Qed.

Lemma orElse_defaulted (raw default : float) : defaulted raw default (raw || default).
Proof.
  unfold defaulted, orElse. cbn [toBoolean float_JSNumber]. unfold float_toBoolean.
  destruct (PrimFloat.is_nan raw), (PrimFloat.is_zero raw); cbn;
    repeat split; intros; congruence.
Qed.

Lemma parseFloat_unparseable {num} `{JSNumber num} text :
  unparseable text -> parseFloat text = NaN.
Proof. unfold unparseable, parseFloat. now intros ->. Qed.

Lemma parseFloat_parsedOrDefault text (default : float) :
  parsedOrDefault text default (parseFloat text || default).
Proof.
  split; [ | apply orElse_defaulted ].
  intros Hu. now rewrite (parseFloat_unparseable text Hu).
Qed.

(** C3, amended. Each numeric field is parsed and replaced by its default
    exactly when the parse gave NaN (the text has no numeric prefix) or a
    zero of either sign; every other parsed value, finite or infinite, is
    kept as it is.  [insulationThickness] is not parsed; the same rule
    applies to the Number passed. *)
Theorem numeric_fields_parsed_or_default
  (roomData : RoomData.t float) conditionsData productData :
  let v := parseInputs roomData conditionsData productData in
  parsedOrDefault (RoomData.length roomData) (lit 5.0) (Inputs.length v) /\
  parsedOrDefault (RoomData.width roomData) (lit 4.0) (Inputs.width v) /\
  parsedOrDefault (RoomData.height roomData) (lit 3.0) (Inputs.height v) /\
  parsedOrDefault (RoomData.doorWidth roomData) (lit 1.2) (Inputs.doorWidth v) /\
  parsedOrDefault (RoomData.doorHeight roomData) (lit 2.1) (Inputs.doorHeight v) /\
  parsedOrDefault (RoomData.doorOpenings roomData) (lit 20) (Inputs.doorOpenings v) /\
  defaulted (RoomData.insulationThickness roomData) (lit 100)
            (Inputs.insulationThickness v) /\
  parsedOrDefault (ConditionsData.externalTemp conditionsData) (lit 35)
                  (Inputs.externalTemp v) /\
  parsedOrDefault (ConditionsData.internalTemp conditionsData) (lit 4)
                  (Inputs.internalTemp v) /\
  parsedOrDefault (ConditionsData.operatingHours conditionsData) (lit 24)
                  (Inputs.operatingHours v) /\
  parsedOrDefault (ConditionsData.pullDownTime conditionsData) (lit 6)
                  (Inputs.pullDownTime v) /\
  parsedOrDefault (ProductData.dailyLoad productData) (lit 2000) (Inputs.dailyLoad v) /\
  parsedOrDefault (ProductData.incomingTemp productData) (lit 25)
                  (Inputs.incomingTemp v) /\
  parsedOrDefault (ProductData.outgoingTemp productData) (lit 4)
                  (Inputs.outgoingTemp v) /\
  parsedOrDefault (ProductData.numberOfPeople productData) (lit 2)
                  (Inputs.numberOfPeople v) /\
  parsedOrDefault (ProductData.workingHours productData) (lit 6)
                  (Inputs.workingHours v) /\
  parsedOrDefault (ProductData.lightingWattage productData) (lit 200)
                  (Inputs.lightingWattage v) /\
  parsedOrDefault (ProductData.equipmentLoad productData) (lit 500)
                  (Inputs.equipmentLoad v).
Proof.
  cbn zeta. unfold parseInputs. cbn [Inputs.length Inputs.width Inputs.height
    Inputs.doorWidth Inputs.doorHeight Inputs.doorOpenings Inputs.insulationThickness
    Inputs.externalTemp Inputs.internalTemp Inputs.operatingHours Inputs.pullDownTime
    Inputs.dailyLoad Inputs.incomingTemp Inputs.outgoingTemp Inputs.numberOfPeople
    Inputs.workingHours Inputs.lightingWattage Inputs.equipmentLoad].
  repeat split;
    first [ apply orElse_defaulted
          | intros Hu; now rewrite (parseFloat_unparseable _ Hu) ].
Qed.



(** *** NaN and cancellation, from the specification of the primitive
    operations *)

Lemma float_is_nan (x : float) : Prim2SF x = S754_nan -> x = PrimFloat.nan.
Proof. intros Hx. apply Prim2SF_inj. now rewrite Hx. Qed.

Lemma mul_nan_r (x : float) : x * PrimFloat.nan = PrimFloat.nan.
Proof.
  apply float_is_nan. cbn [mul float_JSNumber].
  rewrite mul_spec. change (Prim2SF PrimFloat.nan) with S754_nan.
  now destruct (Prim2SF x).
Qed.

Lemma mul_nan_l (x : float) : PrimFloat.nan * x = PrimFloat.nan.
Proof.
  apply float_is_nan. cbn [mul float_JSNumber].
  rewrite mul_spec. now change (Prim2SF PrimFloat.nan) with S754_nan.
Qed.

Lemma div_nan_l (x : float) : PrimFloat.nan / x = PrimFloat.nan.
Proof.
  apply float_is_nan. cbn [div float_JSNumber].
  rewrite div_spec. now change (Prim2SF PrimFloat.nan) with S754_nan.
Qed.

Lemma add_nan_r (x : float) : x + PrimFloat.nan = PrimFloat.nan.
Proof.
  apply float_is_nan. cbn [add float_JSNumber].
  rewrite add_spec. change (Prim2SF PrimFloat.nan) with S754_nan.
  now destruct (Prim2SF x).
Qed.

Lemma sqrt_negative (x : float) :
  PrimFloat.ltb x 0 = true -> sqrt x = PrimFloat.nan.
Proof.
  intros Hx. apply float_is_nan. cbn [sqrt float_JSNumber]. rewrite sqrt_spec.
  rewrite ltb_spec in Hx. change (Prim2SF 0) with (S754_zero false) in Hx.
  unfold SF64sqrt. destruct (Prim2SF x) as [ s | s | | s m e ]; cbn in *;
    try discriminate; destruct s; try discriminate; reflexivity.
Qed.

Lemma sub_diag_finite (x : float) :
  PrimFloat.is_finite x = true -> PrimFloat.sub x x = 0%float.
Proof.
  intros Hx. apply Prim2SF_inj. rewrite sub_spec.
  change (Prim2SF 0) with (S754_zero false).
  unfold PrimFloat.is_finite in Hx.
  apply negb_true_iff, orb_false_iff in Hx as [Hn Hi].
  unfold Prim2SF at 1 2. rewrite Hn.
  destruct (PrimFloat.is_zero x).
  - now destruct (PrimFloat.get_sign x).
  - rewrite Hi. destruct (Z.frexp x) as [fr ex].
    destruct (shr_fexp prec emax _ _ _) as [mrs e'].
    destruct (shr_m mrs) as [ | p | p ]; try reflexivity.
    unfold SF64sub, SFsub.
    replace (fst (shl_align p e' (Z.min e' e'))) with p.
    + rewrite Z.sub_diag. reflexivity.
    + unfold shl_align. rewrite Z.min_id, Z.sub_diag. reflexivity.
Qed.

(** X3. C1 in binary64, as a test would check it: whenever [totalLoad] is
    finite, [Math.abs(totalLoad - sum) <= 1e-9] holds, the difference being
    0. *)
Theorem totalLoad_within_tolerance
  (THERMAL_DATA : ThermalData.t float) (PRODUCTS : gmap string (Product.t float))
  (STORAGE_FACTORS : gmap string float) :
  hasGeneralFoodItems PRODUCTS ->
  forall roomData conditionsData productData,
  exists r,
    calculateColdRoomLoad THERMAL_DATA PRODUCTS STORAGE_FACTORS
      roomData conditionsData productData = normal r /\
    let sum :=
      TransmissionLoad.total (LoadResult.transmissionLoad r)
      + ProductLoad.total (LoadResult.productLoad r)
      + LoadResult.airInfiltrationLoad r
      + InternalLoads.total (LoadResult.internalLoads r)
      + LoadResult.doorLoad r in
    (PrimFloat.is_finite (LoadResult.totalLoad r) = true ->
     LoadResult.totalLoad r - sum = 0%float /\
     PrimFloat.leb (PrimFloat.abs (LoadResult.totalLoad r - sum)) (lit 1e-9) = true).
Proof.
  intros Hg roomData conditionsData productData.
  destruct (returns_with_fallback THERMAL_DATA PRODUCTS STORAGE_FACTORS
              roomData conditionsData productData Hg) as [r Hr].
  exists r. split; [ exact Hr | ].
  destruct (aggregates_of_result _ _ _ _ _ _ _ Hr) as (_ & Htotal & _).
  cbn zeta. rewrite <- Htotal. cbn [sub float_JSNumber].
  intros Hfin. rewrite (sub_diag_finite _ Hfin). split; reflexivity.
Qed.

(** X4. Sections 4.8 and 7: nothing rejects a negative temperature
    difference.  Its square root is NaN, and so are the door load, the
    total, the total with the safety factor and the tons. *)
Theorem negative_difference_gives_NaN
  (THERMAL_DATA : ThermalData.t float) (PRODUCTS : gmap string (Product.t float))
  (STORAGE_FACTORS : gmap string float) :
  hasGeneralFoodItems PRODUCTS ->
  forall roomData conditionsData productData,
  exists r,
    calculateColdRoomLoad THERMAL_DATA PRODUCTS STORAGE_FACTORS
      roomData conditionsData productData = normal r /\
    (PrimFloat.ltb (LoadResult.temperatureDifference r) 0 = true ->
     LoadResult.doorLoad r = PrimFloat.nan /\
     LoadResult.totalLoad r = PrimFloat.nan /\
     LoadResult.totalLoadWithSafety r = PrimFloat.nan /\
     LoadResult.refrigerationTons r = PrimFloat.nan).
Proof.
  intros Hg roomData conditionsData productData.
  destruct (returns_with_fallback THERMAL_DATA PRODUCTS STORAGE_FACTORS
              roomData conditionsData productData Hg) as [r Hr].
  exists r. split; [ exact Hr | ].
  destruct (aggregates_of_result _ _ _ _ _ _ _ Hr) as (Hdoor & Htotal & Hsafety & Htons).
  intros Hneg.
  rewrite (sqrt_negative _ Hneg), mul_nan_r, !div_nan_l in Hdoor.
  rewrite Hdoor, add_nan_r in Htotal.
  rewrite Htotal, mul_nan_l in Hsafety.
  rewrite Hsafety, div_nan_l in Htons.
  repeat split; assumption.
Qed.

End Binary64.

(** ** binary64: rounding keeps the order

    Every operation of [SpecFloat] on operands that are not negative
    rounds the real result of the operation, and rounding to nearest
    keeps the order of the reals it rounds. *)

Module Rounding.
Import Round.

Lemma bpow_pos e : (0 < bpow e)%R.
Proof. apply powerRZ_lt. lra. Qed.

Lemma bpow_add a b : bpow (a + b) = (bpow a * bpow b)%R.
Proof. apply powerRZ_add. lra. Qed.

Lemma bpow_succ e : bpow (e + 1) = (2 * bpow e)%R.
Proof. unfold bpow. rewrite powerRZ_add by lra. rewrite powerRZ_1. lra. Qed.

Lemma bpow_IZR k : 0 <= k -> bpow k = IZR (2 ^ k).
Proof.
  intros Hk. unfold bpow. rewrite <- (Z2Nat.id k Hk).
  rewrite <- pow_powerRZ, <- pow_IZR. reflexivity.
Qed.

Lemma bpow_ge_1 k : 0 <= k -> (1 <= bpow k)%R.
Proof.
  intros Hk. rewrite (bpow_IZR k Hk). apply IZR_le.
  pose proof (Z.pow_pos_nonneg 2 k ltac:(lia) Hk). lia.
Qed.

Lemma bpow_le a b : a <= b -> (bpow a <= bpow b)%R.
Proof.
  intros H. replace b with (a + (b - a)) by lia. rewrite bpow_add.
  pose proof (bpow_pos a). pose proof (bpow_ge_1 (b - a) ltac:(lia)). nra.
Qed.

Lemma bpow_lt a b : a < b -> (bpow a < bpow b)%R.
Proof.
  intros H. apply Rlt_le_trans with (bpow (a + 1)).
  - rewrite bpow_succ. pose proof (bpow_pos a). lra.
  - apply bpow_le. lia.
Qed.

(** The number of binary digits. *)
Lemma digits2_pos_bounds p :
  2 ^ (Zpos (digits2_pos p) - 1) <= Zpos p < 2 ^ Zpos (digits2_pos p).
Proof.
  induction p as [ p IH | p IH | ]; cbn [digits2_pos].
  - rewrite Pos2Z.inj_succ.
    replace (Z.succ (Zpos (digits2_pos p)) - 1) with (Z.succ (Zpos (digits2_pos p) - 1)) by lia.
    rewrite !Z.pow_succ_r by lia. lia.
  - rewrite Pos2Z.inj_succ.
    replace (Z.succ (Zpos (digits2_pos p)) - 1) with (Z.succ (Zpos (digits2_pos p) - 1)) by lia.
    rewrite !Z.pow_succ_r by lia. lia.
  - cbn. lia.
Qed.

Lemma Zdigits2_bounds m :
  0 < m -> 2 ^ (Zdigits2 m - 1) <= m < 2 ^ Zdigits2 m.
Proof. destruct m as [ | p | p ]; [ lia | | lia ]. intros _. apply digits2_pos_bounds. Qed.

Lemma Zdigits2_pos m : 0 < m -> 0 < Zdigits2 m.
Proof. destruct m; cbn; lia. Qed.

Lemma Zdigits2_unique m d :
  0 < m -> 2 ^ (d - 1) <= m < 2 ^ d -> Zdigits2 m = d.
Proof.
  intros Hm [Hlo Hhi]. pose proof (Zdigits2_bounds m Hm) as [Dlo Dhi].
  pose proof (Zdigits2_pos m Hm) as Dpos.
  assert (Hd : 0 < d).
  { destruct (Z_lt_le_dec 0 d) as [ | Hle ]; [ assumption | exfalso ].
    destruct (Z.eq_dec d 0) as [-> | Hne]; [ cbn in Hhi; lia | ].
    rewrite Z.pow_neg_r in Hhi by lia. lia. }
  destruct (Z_lt_le_dec (Zdigits2 m) d) as [Hlt | Hge].
  - assert (2 ^ Zdigits2 m <= 2 ^ (d - 1)) by (apply Z.pow_le_mono_r; lia). lia.
  - destruct (Z_lt_le_dec d (Zdigits2 m)) as [Hlt | Hge']; [ | lia ].
    assert (2 ^ d <= 2 ^ (Zdigits2 m - 1)) by (apply Z.pow_le_mono_r; lia). lia.
Qed.

Lemma Zdigits2_le m k : 0 <= k -> 0 <= m < 2 ^ k -> Zdigits2 m <= k.
Proof.
  intros Hk [Hm Hlt]. destruct (Z.eq_dec m 0) as [-> | Hne]; [ cbn; lia | ].
  pose proof (Zdigits2_bounds m ltac:(lia)) as [Dlo _].
  destruct (Z_lt_le_dec k (Zdigits2 m)) as [Hgt | ]; [ | lia ].
  assert (2 ^ k <= 2 ^ (Zdigits2 m - 1)) by (apply Z.pow_le_mono_r; lia). lia.
Qed.

Lemma fexp_eq e : fexp e = Z.max (e - 53) (-1074).
Proof. reflexivity. Qed.

(** One shift to the right keeps [x] in the cell and halves the mantissa. *)
Lemma shr_1_spec x mrs e :
  0 <= shr_m mrs -> inb x mrs e ->
  inb x (shr_1 mrs) (e + 1) /\ 0 <= shr_m (shr_1 mrs) /\
  shr_m (shr_1 mrs) = shr_m mrs / 2.
Proof.
  destruct mrs as [m r s]. cbn [shr_m]. intros Hm.
  unfold inb. cbn [shr_m shr_r shr_s]. rewrite bpow_succ.
  pose proof (bpow_pos e) as HB.
  assert (Hcases : m = 0 \/ (exists p, m = Zpos p~1) \/ (exists p, m = Zpos p~0) \/ m = 1).
  { destruct m as [ | [ p | p | ] | p ]; eauto; lia. }
  assert (HI : forall p, IZR (Zpos p~1) = (2 * IZR (Zpos p) + 1)%R).
  { intros p. rewrite Pos2Z.inj_xI, plus_IZR, mult_IZR. reflexivity. }
  assert (HO : forall p, IZR (Zpos p~0) = (2 * IZR (Zpos p))%R).
  { intros p. rewrite Pos2Z.inj_xO, mult_IZR. reflexivity. }
  destruct Hcases as [-> | [[p ->] | [[p ->] | ->]]]; cbn [shr_1 shr_m shr_r shr_s];
    try rewrite (HI p); try rewrite (HO p);
    intros [Hcell [Hs1 Hs2]];
    (split; [ split; [ destruct r; lra | split ] | split ]).
  all: try (intros Horb; apply orb_false_iff in Horb as [-> ->];
            rewrite Hs1 by reflexivity; lra).
  all: try (intros Hx; destruct r; [ lra | rewrite Hs2 by lra; reflexivity ]).
  all: try lia.
  - reflexivity.
  - rewrite Pos2Z.inj_xI, Z.add_comm, Z.mul_comm, Z.div_add by lia. reflexivity.
  - rewrite Pos2Z.inj_xO, Z.mul_comm, Z.div_mul by lia. reflexivity.
  - reflexivity.
Qed.

Lemma iter_shr_1_spec x n : forall mrs e,
  0 <= shr_m mrs -> inb x mrs e ->
  inb x (SpecFloat.iter_pos shr_1 n mrs) (e + Zpos n) /\
  0 <= shr_m (SpecFloat.iter_pos shr_1 n mrs) /\
  shr_m (SpecFloat.iter_pos shr_1 n mrs) = shr_m mrs / 2 ^ Zpos n.
Proof.
  induction n as [ n IH | n IH | ]; intros mrs e Hm Hx; cbn [SpecFloat.iter_pos].
  - destruct (shr_1_spec x mrs e Hm Hx) as (H1 & P1 & E1).
    destruct (IH _ _ P1 H1) as (H2 & P2 & E2).
    destruct (IH _ _ P2 H2) as (H3 & P3 & E3).
    split; [ | split; [ exact P3 | ] ].
    + replace (e + Zpos n~1) with (e + 1 + Zpos n + Zpos n) by lia. exact H3.
    + rewrite E3, E2, E1.
      assert (Hp : 0 < 2 ^ Zpos n) by (apply Z.pow_pos_nonneg; lia).
      rewrite !Z.div_div by lia.
      f_equal.
      replace (Zpos n~1) with (1 + (Zpos n + Zpos n)) by lia.
      rewrite !Z.pow_add_r by lia. lia.
  - destruct (IH _ _ Hm Hx) as (H2 & P2 & E2).
    destruct (IH _ _ P2 H2) as (H3 & P3 & E3).
    split; [ | split; [ exact P3 | ] ].
    + replace (e + Zpos n~0) with (e + Zpos n + Zpos n) by lia. exact H3.
    + rewrite E3, E2.
      assert (Hp : 0 < 2 ^ Zpos n) by (apply Z.pow_pos_nonneg; lia).
      rewrite !Z.div_div by lia.
      f_equal.
      replace (Zpos n~0) with (Zpos n + Zpos n) by lia.
      rewrite !Z.pow_add_r by lia. lia.
  - destruct (shr_1_spec x mrs e Hm Hx) as (H1 & P1 & E1).
    split; [ exact H1 | split; [ exact P1 | ] ].
    rewrite E1. reflexivity.
Qed.

Lemma located_exact m e : located (F2R m e) m e loc_Exact.
Proof.
  unfold located, inb, F2R. cbn. pose proof (bpow_pos e).
  split; [ lra | split; intros; [ lra | reflexivity ] ].
Qed.

Lemma shr_m_of_loc m l : shr_m (shr_record_of_loc m l) = m.
Proof. destruct l as [ | [ | | ] ]; reflexivity. Qed.

(** What [shr_fexp] leaves: the same [x] in a cell of the format, whose
    lower end is a number of the format or zero. *)
Lemma shr_fexp_spec x m e l :
  0 <= m -> located x m e l -> e <= fexp (Zdigits2 m + e) ->
  let mrs := fst (shr_fexp prec emax m e l) in
  let E := snd (shr_fexp prec emax m e l) in
  inb x mrs E /\ E = fexp (Zdigits2 m + e) /\
  0 <= shr_m mrs < 2 ^ 53 /\ (2 ^ 52 <= shr_m mrs \/ E = -1074).
Proof.
  intros Hm Hx He. unfold shr_fexp, shr.
  set (n := fexp (Zdigits2 m + e) - e).
  assert (Hn : 0 <= n) by (unfold n; lia).
  assert (Hbound : 0 <= m < 2 ^ 53 /\ (2 ^ 52 <= m \/ e = -1074) \/ 0 < n).
  { destruct (Z.eq_dec n 0) as [Hz | Hnz]; [ left | right; lia ].
    assert (He' : fexp (Zdigits2 m + e) = e) by (unfold n in Hz; lia).
    rewrite fexp_eq in He'.
    destruct (Z.eq_dec m 0) as [-> | Hne].
    - cbn in He'. split; [ lia | right; lia ].
    - pose proof (Zdigits2_bounds m ltac:(lia)) as [Dlo Dhi].
      destruct (Z_lt_le_dec (Zdigits2 m) 53) as [Hlt | Hge].
      + split; [ | right; lia ]. split; [ lia | ].
        assert (2 ^ Zdigits2 m <= 2 ^ 53) by (apply Z.pow_le_mono_r; lia). lia.
      + assert (Zdigits2 m = 53) by lia.
        split; [ split; [ lia | ] | left ].
        * replace 53 with (Zdigits2 m) by lia. exact Dhi.
        * replace 52 with (Zdigits2 m - 1) by lia. exact Dlo. }
  destruct n as [ | p | p ] eqn:En; [ | | lia ].
  - cbn [fst snd]. unfold located in Hx.
    destruct Hbound as [[Hb1 Hb2] | ]; [ | lia ].
    rewrite shr_m_of_loc. repeat split; try lia; try apply Hx.
  - cbn [fst snd].
    destruct (iter_shr_1_spec x p (shr_record_of_loc m l) e) as (H1 & P1 & E1).
    { rewrite shr_m_of_loc. exact Hm. }
    { exact Hx. }
    rewrite shr_m_of_loc in E1.
    assert (HE : e + Zpos p = fexp (Zdigits2 m + e)) by lia.
    split; [ exact H1 | split; [ exact HE | ] ].
    rewrite E1. rewrite fexp_eq in HE.
    assert (Hpow : 0 < 2 ^ Zpos p) by (apply Z.pow_pos_nonneg; lia).
    destruct (Z.eq_dec m 0) as [-> | Hne].
    + rewrite Z.div_0_l by lia. cbn in HE. split; [ lia | right; lia ].
    + pose proof (Zdigits2_bounds m ltac:(lia)) as [Dlo Dhi].
      pose proof (Zdigits2_pos m ltac:(lia)) as Dpos.
      assert (Hq : 0 <= m / 2 ^ Zpos p) by (apply Z.div_pos; lia).
      split; [ split; [ exact Hq | ] | ].
      * apply Z.div_lt_upper_bound; [ lia | ].
        rewrite <- Z.pow_add_r by lia.
        assert (2 ^ Zdigits2 m <= 2 ^ (Zpos p + 53)) by (apply Z.pow_le_mono_r; lia).
        lia.
      * destruct (Z_lt_le_dec (Zdigits2 m + e - 53) (-1074)) as [Hsub | Hnorm];
          [ right; lia | left ].
        assert (Hp : Zpos p = Zdigits2 m - 53) by lia.
        apply Z.div_le_lower_bound; [ lia | ].
        rewrite <- Z.pow_add_r by lia.
        replace (Zpos p + 52) with (Zdigits2 m - 1) by lia. exact Dlo.
Qed.

Lemma rnd_bounds mrs : shr_m mrs <= rnd mrs <= shr_m mrs + 1.
Proof.
  destruct mrs as [m [ | ] [ | ]]; unfold rnd; cbn; try lia.
  destruct (Z.even m); lia.
Qed.

Lemma binary_round_aux_eq sx mx ex lx :
  binary_round_aux prec emax sx mx ex lx =
  let p := shr_fexp prec emax mx ex lx in
  let q := shr_fexp prec emax (rnd (fst p)) (snd p) loc_Exact in
  match shr_m (fst q) with
  | Z0 => S754_zero sx
  | Zpos m => if snd q <=? 971 then S754_finite sx m (snd q) else S754_infinity sx
  | Zneg _ => S754_nan
  end.
Proof.
  unfold binary_round_aux, rnd.
  destruct (shr_fexp prec emax mx ex lx) as [mrs' e']. cbn [fst snd].
  destruct (shr_fexp prec emax _ e' loc_Exact) as [mrs'' e'']. reflexivity.
Qed.

(** The second normalisation does nothing, or absorbs the carry. *)
Lemma shr_fexp_rounded m E :
  0 <= m <= 2 ^ 53 -> -1074 <= E -> (2 ^ 52 <= m \/ E = -1074) \/ m < 2 ^ 52 ->
  let q := shr_fexp prec emax m E loc_Exact in
  (shr_m (fst q), snd q) = if m =? 2 ^ 53 then (2 ^ 52, E + 1) else (m, E).
Proof.
  intros Hm HE _. unfold shr_fexp, shr, shr_record_of_loc.
  destruct (Z.eqb_spec m (2 ^ 53)) as [-> | Hne].
  - change (Zdigits2 (2 ^ 53)) with 54. rewrite fexp_eq.
    replace (Z.max (54 + E - 53) (-1074) - E) with 1 by lia.
    cbn. reflexivity.
  - assert (Hd : Zdigits2 m <= 53) by (apply Zdigits2_le; lia).
    rewrite fexp_eq.
    destruct (Z.max (Zdigits2 m + E - 53) (-1074) - E) as [ | p | p ] eqn:En;
      [ reflexivity | lia | reflexivity ].
Qed.

Lemma binary_round_aux_out sx x mx ex lx :
  0 <= mx -> located x mx ex lx -> ex <= fexp (Zdigits2 mx + ex) ->
  let p := shr_fexp prec emax mx ex lx in
  binary_round_aux prec emax sx mx ex lx =
  mk sx (fst (out (fst p) (snd p))) (snd (out (fst p) (snd p))).
Proof.
  intros Hm Hx He p.
  destruct (shr_fexp_spec x mx ex lx Hm Hx He) as (_ & HE & Hb & Hc).
  fold p in HE, Hb, Hc.
  rewrite binary_round_aux_eq. fold p. cbv zeta.
  pose proof (rnd_bounds (fst p)) as Hr.
  pose proof (shr_fexp_rounded (rnd (fst p)) (snd p)) as Hq.
  cbv zeta in Hq.
  assert (HE' : -1074 <= snd p) by (rewrite HE, fexp_eq; lia).
  specialize (Hq ltac:(lia) HE' ltac:(lia)).
  unfold out, mk.
  destruct (rnd (fst p) =? 2 ^ 53); injection Hq as -> ->; reflexivity.
Qed.

Lemma inb_bounds x mrs E :
  inb x mrs E ->
  (IZR (shr_m mrs) * bpow E <= x < (IZR (shr_m mrs) + 1) * bpow E)%R.
Proof.
  unfold inb. cbv zeta. pose proof (bpow_pos E). intros [Hc _].
  destruct (shr_r mrs); lra.
Qed.

Lemma out_canonical mrs E :
  canonical (shr_m mrs) E -> canonical (fst (out mrs E)) (snd (out mrs E)).
Proof.
  intros (Hm & Hc & HE). pose proof (rnd_bounds mrs) as Hr. unfold out.
  destruct (Z.eqb_spec (rnd mrs) (2 ^ 53)) as [Heq | Hne]; cbn [fst snd]; unfold canonical.
  - lia.
  - repeat split; try lia.
Qed.

Lemma rnd_mono_flags m r1 s1 r2 s2 :
  (r1 = true -> r2 = true) ->
  (r1 = true -> s1 = true -> s2 = true) ->
  rnd {| shr_m := m; shr_r := r1; shr_s := s1 |}
  <= rnd {| shr_m := m; shr_r := r2; shr_s := s2 |}.
Proof.
  intros Hr Hs. unfold rnd. cbn [shr_m].
  destruct r1, s1; cbn.
  - rewrite (Hr eq_refl), (Hs eq_refl eq_refl). cbn. lia.
  - rewrite (Hr eq_refl). destruct s2; cbn; destruct (Z.even m); lia.
  - destruct r2, s2; cbn; try destruct (Z.even m); lia.
  - destruct r2, s2; cbn; try destruct (Z.even m); lia.
Qed.

(** Rounding is monotone: a larger number gets a cell, and a rounded
    mantissa and exponent, that are not smaller. *)
Lemma out_mono x y mrs1 E1 mrs2 E2 :
  (x <= y)%R ->
  inb x mrs1 E1 -> canonical (shr_m mrs1) E1 ->
  inb y mrs2 E2 -> canonical (shr_m mrs2) E2 ->
  lexle (out mrs1 E1) (out mrs2 E2).
Proof.
  intros Hxy Hx (Hm1 & Hc1 & HE1) Hy (Hm2 & Hc2 & HE2).
  pose proof (inb_bounds _ _ _ Hx) as [Hx1 Hx2].
  pose proof (inb_bounds _ _ _ Hy) as [Hy1 Hy2].
  pose proof (rnd_bounds mrs1) as Hr1. pose proof (rnd_bounds mrs2) as Hr2.
  pose proof (bpow_pos E1) as HB1. pose proof (bpow_pos E2) as HB2.
  destruct (Z.lt_trichotomy E1 E2) as [Hlt | [Heq | Hgt]].
  - (* a lower binade *)
    assert (2 ^ 52 <= shr_m mrs2) by lia.
    unfold lexle, out.
    destruct (Z.eqb_spec (rnd mrs1) (2 ^ 53)), (Z.eqb_spec (rnd mrs2) (2 ^ 53));
      cbn [fst snd]; lia.
  - (* the same binade *)
    subst E2.
    assert (Hle : shr_m mrs1 <= shr_m mrs2).
    { assert (IZR (shr_m mrs1) < IZR (shr_m mrs2) + 1)%R by nra.
      rewrite <- plus_IZR in H. apply lt_IZR in H. lia. }
    assert (Hrnd : rnd mrs1 <= rnd mrs2).
    { destruct (Z.eq_dec (shr_m mrs1) (shr_m mrs2)) as [Hm | Hm]; [ | lia ].
      destruct mrs1 as [m1 r1 s1], mrs2 as [m2 r2 s2]. cbn [shr_m] in *. subst m2.
      apply rnd_mono_flags.
      - intros ->. destruct r2; [ reflexivity | exfalso ].
        unfold inb in Hx, Hy. cbn [shr_m shr_r shr_s] in Hx, Hy. lra.
      - intros -> ->. destruct s2; [ reflexivity | exfalso ].
        unfold inb in Hx, Hy. cbn [shr_m shr_r shr_s] in Hx, Hy.
        destruct Hx as [Hxc [Hxs1 Hxs2]]. destruct Hy as [Hyc [Hys1 Hys2]].
        specialize (Hys1 eq_refl).
        destruct r2.
        + assert (Hmid : x = ((IZR m1 + / 2) * bpow E1)%R) by lra.
          specialize (Hxs2 Hmid). discriminate.
        + lra. }
    unfold lexle, out.
    destruct (Z.eqb_spec (rnd mrs1) (2 ^ 53)), (Z.eqb_spec (rnd mrs2) (2 ^ 53));
      cbn [fst snd]; lia.
  - (* impossible: a higher binade *)
    exfalso.
    assert (H52 : 2 ^ 52 <= shr_m mrs1) by lia.
    apply IZR_le in H52.
    assert (H53 : shr_m mrs2 + 1 <= 2 ^ 53) by lia.
    apply IZR_le in H53. rewrite plus_IZR in H53.
    assert (HB : (2 * bpow E2 <= bpow E1)%R).
    { rewrite <- bpow_succ. apply bpow_le. lia. }
    change (2 ^ 53) with (2 * 2 ^ 52) in H53. rewrite mult_IZR in H53.
    assert (0 < IZR (2 ^ 52))%R by (apply IZR_lt; reflexivity).
    nra.
Qed.

Lemma mk_mono m1 e1 m2 e2 :
  canonical m1 e1 -> canonical m2 e2 -> lexle (m1, e1) (m2, e2) ->
  SFleb (mk false m1 e1) (mk false m2 e2) = true.
Proof.
  intros (Hm1 & Hc1 & He1) (Hm2 & Hc2 & He2) Hle. unfold lexle in Hle. cbn [fst snd] in Hle.
  unfold mk, SFleb.
  assert (H52 : 0 < 2 ^ 52) by reflexivity.
  destruct m1 as [ | p1 | p1 ], m2 as [ | p2 | p2 ]; try lia.
  - reflexivity.
  - destruct (e2 <=? 971); reflexivity.
  - destruct (Z.leb_spec e1 971), (Z.leb_spec e2 971); cbn; try reflexivity; try lia.
    destruct (Z.compare_spec e1 e2) as [Heq | Hlt | Hgt]; try reflexivity; try lia.
    rewrite Pos.compare_cont_spec. cbn.
    destruct (Pos.compare_spec p1 p2); try reflexivity. lia.
Qed.

Lemma shr_fexp_canonical x m e l :
  0 <= m -> located x m e l -> e <= fexp (Zdigits2 m + e) ->
  let p := shr_fexp prec emax m e l in
  inb x (fst p) (snd p) /\ canonical (shr_m (fst p)) (snd p).
Proof.
  intros Hm Hx He p.
  destruct (shr_fexp_spec x m e l Hm Hx He) as (Hin & HE & Hb & Hc).
  fold p in Hin, HE, Hb, Hc. split; [ exact Hin | ].
  unfold canonical. repeat split; try lia; try assumption.
  rewrite HE, fexp_eq. lia.
Qed.

(** Rounding to nearest keeps the order of the reals it rounds. *)
Theorem rounds_to_mono v w f g :
  (v <= w)%R -> rounds_to v f -> rounds_to w g -> SFleb f g = true.
Proof.
  intros Hvw (m1 & e1 & l1 & Hm1 & Hv & He1 & ->) (m2 & e2 & l2 & Hm2 & Hw & He2 & ->).
  rewrite (binary_round_aux_out false v m1 e1 l1 Hm1 Hv He1).
  rewrite (binary_round_aux_out false w m2 e2 l2 Hm2 Hw He2).
  destruct (shr_fexp_canonical v m1 e1 l1 Hm1 Hv He1) as [Hin1 Hc1].
  destruct (shr_fexp_canonical w m2 e2 l2 Hm2 Hw He2) as [Hin2 Hc2].
  apply mk_mono.
  - apply out_canonical, Hc1.
  - apply out_canonical, Hc2.
  - pose proof (out_mono v w _ _ _ _ Hvw Hin1 Hc1 Hin2 Hc2) as Hle.
    unfold lexle in *. cbn [fst snd]. exact Hle.
Qed.

Lemma mk_nonneg m e : 0 <= m -> nonneg (mk false m e).
Proof.
  intros Hm. unfold mk. destruct m; cbn; try lia; auto.
  destruct (e <=? 971); reflexivity.
Qed.

Lemma rounds_to_nonneg v f : rounds_to v f -> nonneg f.
Proof.
  intros (m & e & l & Hm & Hv & He & ->).
  rewrite (binary_round_aux_out false v m e l Hm Hv He).
  apply mk_nonneg.
  destruct (shr_fexp_canonical v m e l Hm Hv He) as [_ Hc].
  apply out_canonical in Hc. destruct Hc as (Hc & _). lia.
Qed.

(** Valid numbers of the format, and their values. *)
Lemma bounded_canonical m e :
  SpecFloat.bounded prec emax m e = true -> canonical (Zpos m) e /\ e <= 971 /\
  fexp (Zdigits2 (Zpos m) + e) = e.
Proof.
  unfold SpecFloat.bounded, canonical_mantissa. intros Hb.
  apply andb_true_iff in Hb as [Hc He].
  apply Z.eqb_eq in Hc. apply Z.leb_le in He. change (emax - prec) with 971 in He.
  change (Zpos (digits2_pos m)) with (Zdigits2 (Zpos m)) in Hc.
  pose proof (Zdigits2_bounds (Zpos m) ltac:(lia)) as [Dlo Dhi].
  pose proof Hc as Hc'. rewrite fexp_eq in Hc'.
  split; [ | split; [ exact He | exact Hc ] ].
  unfold canonical. split; [ split; [ lia | ] | split; [ | lia ] ].
  - assert (2 ^ Zdigits2 (Zpos m) <= 2 ^ 53) by (apply Z.pow_le_mono_r; lia). lia.
  - destruct (Z.eq_dec e (-1074)) as [ | Hne ]; [ right; assumption | left ].
    assert (Hd : Zdigits2 (Zpos m) = 53) by lia.
    replace 52 with (Zdigits2 (Zpos m) - 1) by lia. exact Dlo.
Qed.

Lemma canonical_value_le m1 e1 m2 e2 :
  canonical m1 e1 -> canonical m2 e2 -> lexle (m1, e1) (m2, e2) ->
  (F2R m1 e1 <= F2R m2 e2)%R.
Proof.
  intros (Hm1 & Hc1 & He1) (Hm2 & Hc2 & He2) [Hlt | [Heq Hle]]; cbn [fst snd] in *; unfold F2R.
  - assert (H52 : 2 ^ 52 <= m2) by lia.
    apply IZR_le in H52.
    assert (H53 : m1 <= 2 * 2 ^ 52) by (change (2 * 2 ^ 52) with (2 ^ 53); lia).
    apply IZR_le in H53. rewrite mult_IZR in H53.
    assert (HB : (2 * bpow e1 <= bpow e2)%R).
    { rewrite <- bpow_succ. apply bpow_le. lia. }
    pose proof (bpow_pos e1). pose proof (bpow_pos e2).
    assert (0 <= IZR m1)%R by (apply IZR_le; lia).
    assert (0 < IZR (2 ^ 52))%R by (apply IZR_lt; reflexivity).
    nra.
  - subst e2. apply IZR_le in Hle. pose proof (bpow_pos e1). nra.
Qed.

(** A valid positive number is the rounding of its own value. *)
Lemma rounds_to_self m e :
  SpecFloat.bounded prec emax m e = true ->
  rounds_to (F2R (Zpos m) e) (S754_finite false m e).
Proof.
  intros Hb. destruct (bounded_canonical m e Hb) as (Hc & He & Hf).
  exists (Zpos m), e, loc_Exact. split; [ lia | ].
  split; [ apply located_exact | ]. split; [ lia | ].
  rewrite (binary_round_aux_out false (F2R (Zpos m) e) (Zpos m) e loc_Exact);
    [ | lia | apply located_exact | lia ].
  unfold shr_fexp. rewrite Hf, Z.sub_diag. cbn [shr shr_record_of_loc fst snd].
  unfold out, rnd. cbn [shr_m loc_of_shr_record round_nearest_even].
  destruct Hc as (Hm & _ & _).
  destruct (Z.eqb_spec (Zpos m) (2 ^ 53)) as [Heq | Hne]; [ lia | ].
  cbn [fst snd mk]. apply Z.leb_le in He. rewrite He. reflexivity.
Qed.

Lemma Zdigits2_ge m k : 0 <= k -> 2 ^ k <= m -> k + 1 <= Zdigits2 m.
Proof.
  intros Hk Hm. assert (Hpos : 0 < 2 ^ k) by (apply Z.pow_pos_nonneg; lia).
  pose proof (Zdigits2_bounds m ltac:(lia)) as [_ Dhi].
  pose proof (Zdigits2_pos m ltac:(lia)) as Dpos.
  destruct (Z_lt_le_dec k (Zdigits2 m)) as [ | Hge ]; [ lia | ].
  assert (2 ^ Zdigits2 m <= 2 ^ k) by (apply Z.pow_le_mono_r; lia). lia.
Qed.

(** Enough digits at exponent [e]: the condition under which
    [binary_round_aux] rounds to the format. *)
Lemma enough_digits m e :
  e <= -1074 \/ 53 <= Zdigits2 m -> e <= fexp (Zdigits2 m + e).
Proof. rewrite fexp_eq. lia. Qed.

Lemma F2R_mul m1 e1 m2 e2 : F2R (m1 * m2) (e1 + e2) = (F2R m1 e1 * F2R m2 e2)%R.
Proof. unfold F2R. rewrite mult_IZR, bpow_add. ring. Qed.

Lemma F2R_pos m e : 0 < m -> (0 < F2R m e)%R.
Proof.
  intros Hm. unfold F2R. apply Rmult_lt_0_compat; [ apply IZR_lt; lia | apply bpow_pos ].
Qed.

(** The product of two positive numbers is the rounding of the product
    of their values. *)
Lemma SFmul_rounds_to m1 e1 m2 e2 :
  SpecFloat.bounded prec emax m1 e1 = true ->
  SpecFloat.bounded prec emax m2 e2 = true ->
  rounds_to (F2R (Zpos m1) e1 * F2R (Zpos m2) e2)
            (SFmul prec emax (S754_finite false m1 e1) (S754_finite false m2 e2)).
Proof.
  intros Hb1 Hb2.
  destruct (bounded_canonical m1 e1 Hb1) as ((Hm1 & Hc1 & He1) & _ & Hf1).
  destruct (bounded_canonical m2 e2 Hb2) as ((Hm2 & Hc2 & He2) & _ & Hf2).
  exists (Zpos (m1 * m2)), (e1 + e2), loc_Exact.
  split; [ lia | ]. split; [ | split; [ | reflexivity ] ].
  - rewrite <- F2R_mul. apply located_exact.
  - apply enough_digits.
    destruct (Z_le_gt_dec (e1 + e2) (-1074)) as [ | Hgt ]; [ left; assumption | right ].
    pose proof (Zdigits2_bounds (Zpos m1) ltac:(lia)) as [D1 _].
    pose proof (Zdigits2_bounds (Zpos m2) ltac:(lia)) as [D2 _].
    pose proof (Zdigits2_pos (Zpos m1) ltac:(lia)) as P1.
    pose proof (Zdigits2_pos (Zpos m2) ltac:(lia)) as P2.
    assert (Hprod : 2 ^ (Zdigits2 (Zpos m1) - 1 + (Zdigits2 (Zpos m2) - 1))
                    <= Zpos (m1 * m2)).
    { rewrite Z.pow_add_r by lia. rewrite Pos2Z.inj_mul.
      apply Z.mul_le_mono_nonneg; try lia; apply Z.pow_nonneg; lia. }
    apply Zdigits2_ge in Hprod; [ | lia ].
    assert (Hone : 53 <= Zdigits2 (Zpos m1) \/ 53 <= Zdigits2 (Zpos m2)).
    { rewrite fexp_eq in Hf1, Hf2. lia. }
    lia.
Qed.

(** Left shifts. *)
Lemma iter_xO m d : Zpos (Pos.iter xO m d) = Zpos m * 2 ^ Zpos d.
Proof.
  induction d as [ | d IH ] using Pos.peano_ind.
  - cbn. lia.
  - rewrite Pos.iter_succ, Pos2Z.inj_xO, IH, Pos2Z.inj_succ, Z.pow_succ_r by lia. lia.
Qed.

Lemma shl_align_spec m e e' :
  let p := shl_align m e e' in
  snd p = Z.min e e' /\ Zpos (fst p) = Zpos m * 2 ^ (e - Z.min e e').
Proof.
  unfold shl_align.
  destruct (e' - e) as [ | d | d ] eqn:Hd; cbn [fst snd].
  - rewrite Z.min_l by lia. rewrite Z.sub_diag. cbn. lia.
  - rewrite Z.min_l by lia. rewrite Z.sub_diag. cbn. lia.
  - rewrite Z.min_r by lia. split; [ reflexivity | ].
    rewrite iter_xO. f_equal. f_equal. lia.
Qed.

Lemma F2R_shift m e k : 0 <= k -> F2R (m * 2 ^ k) (e - k) = F2R m e.
Proof.
  intros Hk. unfold F2R. rewrite mult_IZR, <- (bpow_IZR k Hk).
  rewrite Rmult_assoc, <- bpow_add. f_equal. f_equal. lia.
Qed.

Lemma Zdigits2_shift m k : 0 < m -> 0 <= k -> Zdigits2 (m * 2 ^ k) = Zdigits2 m + k.
Proof.
  intros Hm Hk. pose proof (Zdigits2_bounds m Hm) as [Dlo Dhi].
  pose proof (Zdigits2_pos m Hm) as Dpos.
  assert (Hp : 0 < 2 ^ k) by (apply Z.pow_pos_nonneg; lia).
  apply Zdigits2_unique; [ lia | ]. split.
  - replace (Zdigits2 m + k - 1) with (Zdigits2 m - 1 + k) by lia.
    rewrite Z.pow_add_r by lia. apply Z.mul_le_mono_nonneg_r; lia.
  - rewrite Z.pow_add_r by lia. apply Z.mul_lt_mono_pos_r; lia.
Qed.

(** [binary_round] rounds the integer multiple of a power of two it is
    given. *)
Lemma binary_round_rounds_to p e :
  rounds_to (F2R (Zpos p) e) (binary_round prec emax false p e).
Proof.
  unfold binary_round.
  pose proof (shl_align_spec p e (fexp (Zpos (digits2_pos p) + e))) as [Hs Hf].
  destruct (shl_align p e (fexp (Zpos (digits2_pos p) + e))) as [mz ez].
  cbn [fst snd] in Hs, Hf.
  change (Zpos (digits2_pos p)) with (Zdigits2 (Zpos p)) in *.
  exists (Zpos mz), ez, loc_Exact.
  split; [ lia | ]. split; [ | split; [ | reflexivity ] ].
  - replace (F2R (Zpos p) e) with (F2R (Zpos mz) ez); [ apply located_exact | ].
    rewrite Hf, Hs.
    replace (Z.min e (fexp (Zdigits2 (Zpos p) + e)))
      with (e - (e - Z.min e (fexp (Zdigits2 (Zpos p) + e)))) at 2 by lia.
    apply F2R_shift. lia.
  - rewrite Hf, Zdigits2_shift by lia. subst ez.
    replace (Zdigits2 (Zpos p) + (e - Z.min e (fexp (Zdigits2 (Zpos p) + e)))
             + Z.min e (fexp (Zdigits2 (Zpos p) + e)))
      with (Zdigits2 (Zpos p) + e) by lia.
    lia.
Qed.

Lemma F2R_align m e e' :
  F2R (Zpos (fst (shl_align m e e'))) (Z.min e e') = F2R (Zpos m) e.
Proof.
  destruct (shl_align_spec m e e') as [_ Hf]. rewrite Hf.
  replace (Z.min e e') with (e - (e - Z.min e e')) at 2 by lia.
  apply F2R_shift. lia.
Qed.

Lemma F2R_cond_Zopp s m e : F2R (cond_Zopp s m) e = (if s then - F2R m e else F2R m e)%R.
Proof. unfold F2R. destruct s; cbn [cond_Zopp]; [ rewrite opp_IZR; ring | reflexivity ]. Qed.

Lemma F2R_plus m1 m2 e : F2R (m1 + m2) e = (F2R m1 e + F2R m2 e)%R.
Proof. unfold F2R. rewrite plus_IZR. ring. Qed.

Lemma F2R_minus m1 m2 e : F2R (m1 - m2) e = (F2R m1 e - F2R m2 e)%R.
Proof. unfold F2R. rewrite minus_IZR. ring. Qed.

Lemma F2R_sign m e : (0 < F2R m e)%R -> 0 < m.
Proof.
  unfold F2R. intros H. pose proof (bpow_pos e).
  apply lt_IZR. destruct (Rlt_le_dec 0 (IZR m)) as [ | Hle ]; [ assumption | nra ].
Qed.

Lemma binary_normalize_rounds_to m e :
  (0 < F2R m e)%R -> rounds_to (F2R m e) (binary_normalize prec emax m e false).
Proof.
  intros H. apply F2R_sign in H. destruct m as [ | p | p ]; try lia.
  apply binary_round_rounds_to.
Qed.

Lemma SFadd_value sx mx ex sy my ey :
  let ez := Z.min ex ey in
  F2R (cond_Zopp sx (Zpos (fst (shl_align mx ex ez)))
       + cond_Zopp sy (Zpos (fst (shl_align my ey ez)))) ez
  = (B2R (S754_finite sx mx ex) + B2R (S754_finite sy my ey))%R.
Proof.
  cbv zeta. rewrite F2R_plus, !F2R_cond_Zopp. cbn [B2R]. rewrite !F2R_cond_Zopp.
  pose proof (F2R_align mx ex (Z.min ex ey)) as H1.
  pose proof (F2R_align my ey (Z.min ex ey)) as H2.
  replace (Z.min ex (Z.min ex ey)) with (Z.min ex ey) in H1 by lia.
  replace (Z.min ey (Z.min ex ey)) with (Z.min ex ey) in H2 by lia.
  rewrite H1, H2. reflexivity.
Qed.

Lemma SFsub_value sx mx ex sy my ey :
  let ez := Z.min ex ey in
  F2R (cond_Zopp sx (Zpos (fst (shl_align mx ex ez)))
       - cond_Zopp sy (Zpos (fst (shl_align my ey ez)))) ez
  = (B2R (S754_finite sx mx ex) - B2R (S754_finite sy my ey))%R.
Proof.
  cbv zeta. rewrite F2R_minus, !F2R_cond_Zopp. cbn [B2R]. rewrite !F2R_cond_Zopp.
  pose proof (F2R_align mx ex (Z.min ex ey)) as H1.
  pose proof (F2R_align my ey (Z.min ex ey)) as H2.
  replace (Z.min ex (Z.min ex ey)) with (Z.min ex ey) in H1 by lia.
  replace (Z.min ey (Z.min ex ey)) with (Z.min ex ey) in H2 by lia.
  rewrite H1, H2. reflexivity.
Qed.

Lemma SFadd_rounds_to sx mx ex sy my ey :
  let x := S754_finite sx mx ex in
  let y := S754_finite sy my ey in
  (0 < B2R x + B2R y)%R ->
  rounds_to (B2R x + B2R y) (SFadd prec emax x y).
Proof.
  cbv zeta. intros Hpos. rewrite <- SFadd_value in *.
  unfold SFadd. apply binary_normalize_rounds_to. exact Hpos.
Qed.

Lemma SFsub_rounds_to sx mx ex sy my ey :
  let x := S754_finite sx mx ex in
  let y := S754_finite sy my ey in
  (0 < B2R x - B2R y)%R ->
  rounds_to (B2R x - B2R y) (SFsub prec emax x y).
Proof.
  cbv zeta. intros Hpos. rewrite <- SFsub_value in *.
  unfold SFsub. apply binary_normalize_rounds_to. exact Hpos.
Qed.

(** Division. *)
Lemma located_quotient q r d e :
  0 <= q -> 0 <= r < d ->
  located ((IZR q + IZR r / IZR d) * bpow e) q e (new_location d r).
Proof.
  intros Hq [Hr Hd]. pose proof (bpow_pos e) as HB.
  assert (HD : (0 < IZR d)%R) by (apply IZR_lt; lia).
  remember (IZR r / IZR d)%R as f eqn:Ef.
  assert (Hf : (f * IZR d = IZR r)%R) by (rewrite Ef; field; lra).
  clear Ef.
  assert (HR : (0 <= IZR r)%R) by (apply IZR_le; lia).
  assert (H1 : (f < 1)%R) by (apply IZR_lt in Hd; nra).
  assert (Hcase : new_location d r = loc_Exact /\ f = 0%R
                  \/ new_location d r = loc_Inexact Lt /\ (0 < f < / 2)%R
                  \/ new_location d r = loc_Inexact Eq /\ f = (/ 2)%R
                  \/ new_location d r = loc_Inexact Gt /\ (/ 2 < f)%R).
  { unfold new_location.
    destruct (Z.eqb_spec r 0) as [-> | Hne].
    - left. split; [ destruct (Z.even d); reflexivity | nra ].
    - right.
      assert (HR' : (0 < IZR r)%R) by (apply IZR_lt; lia).
      assert (Hf0 : (0 < f)%R) by nra.
      assert (Hz : (r =? 0) = false) by (apply Z.eqb_neq; exact Hne).
      destruct (Z.even d) eqn:Hev;
        unfold new_location_even, new_location_odd; rewrite Hz.
      + destruct (Z.compare_spec (2 * r) d) as [Heq | Hlt | Hgt].
        * right; left. split; [ reflexivity | ].
          assert (Hh : (2 * IZR r = IZR d)%R) by (rewrite <- mult_IZR; f_equal; exact Heq).
          nra.
        * left. split; [ reflexivity | ].
          apply IZR_lt in Hlt. rewrite mult_IZR in Hlt. split; nra.
        * right; right. split; [ reflexivity | ].
          apply IZR_lt in Hgt. rewrite mult_IZR in Hgt. nra.
      + assert (Hodd : 2 * r <> d).
        { intros Heq. rewrite <- Heq, Z.even_mul in Hev. discriminate. }
        destruct (Z.compare_spec (2 * r + 1) d) as [Heq | Hlt | Hgt].
        * left. split; [ reflexivity | ].
          assert (Hlt : 2 * r < d) by lia.
          apply IZR_lt in Hlt. rewrite mult_IZR in Hlt. split; nra.
        * left. split; [ reflexivity | ].
          assert (Hlt' : 2 * r < d) by lia.
          apply IZR_lt in Hlt'. rewrite mult_IZR in Hlt'. split; nra.
        * right; right. split; [ reflexivity | ].
          assert (Hgt' : d < 2 * r) by lia.
          apply IZR_lt in Hgt'. rewrite mult_IZR in Hgt'. nra. }
  unfold located, inb.
  destruct Hcase as [[-> Hz] | [[-> Hz] | [[-> Hz] | [-> Hz]]]];
    cbn [shr_record_of_loc shr_m shr_r shr_s]; cbv zeta.
  - split; [ nra | split; [ intros _; nra | reflexivity ] ].
  - split; [ nra | split; [ discriminate | intros Hx; exfalso; nra ] ].
  - split; [ nra | split; [ intros _; nra | reflexivity ] ].
  - split; [ nra | split; [ discriminate | intros Hx; exfalso; nra ] ].
Qed.

Lemma shiftl_pos m s : 0 <= s ->
  match s with
  | 0 => m
  | Zpos _ => Z.shiftl m s
  | Zneg _ => 0
  end = m * 2 ^ s.
Proof.
  intros Hs. destruct s as [|p|p]; [ cbn; lia | | lia ].
  apply Z.shiftl_mul_pow2. lia.
Qed.

(** The quotient: mantissa, exponent and location that [SFdiv] hands to
    the rounding locate the quotient of the values, with enough digits. *)
Lemma SFdiv_core_spec m1 e1 m2 e2 :
  let '(q, e', l) := SFdiv_core_binary prec emax (Zpos m1) e1 (Zpos m2) e2 in
  0 <= q /\
  located (F2R (Zpos m1) e1 / F2R (Zpos m2) e2) q e' l /\
  (e' <= -1074 \/ 53 <= Zdigits2 q).
Proof.
  unfold SFdiv_core_binary.
  set (d1 := Zdigits2 (Zpos m1)). set (d2 := Zdigits2 (Zpos m2)).
  set (e' := Z.min (fexp (d1 + e1 - (d2 + e2))) (e1 - e2)).
  cbv zeta.
  assert (Hs : 0 <= e1 - e2 - e') by (subst e'; lia).
  rewrite (shiftl_pos (Zpos m1) (e1 - e2 - e') Hs).
  set (s := e1 - e2 - e') in *.
  pose proof (Z.div_eucl_eq (Zpos m1 * 2 ^ s) (Zpos m2) ltac:(lia)) as Hdiv.
  pose proof (Z.mod_pos_bound (Zpos m1 * 2 ^ s) (Zpos m2) ltac:(lia)) as Hmod.
  pose proof (Z.div_pos (Zpos m1 * 2 ^ s) (Zpos m2)) as Hq.
  unfold Z.modulo, Z.div in Hmod, Hq.
  destruct (Z.div_eucl (Zpos m1 * 2 ^ s) (Zpos m2)) as [q r].
  assert (H2s : 0 < 2 ^ s) by (apply Z.pow_pos_nonneg; lia).
  assert (Hq0 : 0 <= q) by (apply Hq; nia).
  split; [ exact Hq0 | split ].
  - replace (F2R (Zpos m1) e1 / F2R (Zpos m2) e2)%R
      with ((IZR q + IZR r / IZR (Zpos m2)) * bpow e')%R.
    + apply located_quotient; [ exact Hq0 | exact Hmod ].
    + unfold F2R.
      assert (HM : (0 < IZR (Zpos m2))%R) by (apply IZR_lt; lia).
      pose proof (bpow_pos e2) as HB2. pose proof (bpow_pos e') as HB'.
      assert (He1 : bpow e1 = (bpow s * bpow e2 * bpow e')%R).
      { rewrite <- !bpow_add. f_equal. subst s. lia. }
      assert (Hm : (IZR (Zpos m1) * bpow s = IZR (Zpos m2) * IZR q + IZR r)%R).
      { rewrite (bpow_IZR s Hs), <- !mult_IZR, <- plus_IZR. f_equal. exact Hdiv. }
      rewrite He1.
      replace (IZR (Zpos m1) * (bpow s * bpow e2 * bpow e') / (IZR (Zpos m2) * bpow e2))%R
        with ((IZR (Zpos m1) * bpow s) / IZR (Zpos m2) * bpow e')%R by (field; lra).
      rewrite Hm. field. lra.
  - destruct (Z_le_gt_dec e' (-1074)) as [Hle | Hgt]; [ left; exact Hle | right ].
    assert (Hf : fexp (d1 + e1 - (d2 + e2)) = d1 + e1 - (d2 + e2) - 53).
    { rewrite fexp_eq. subst e'. rewrite fexp_eq in Hgt. lia. }
    assert (Hs' : 53 - d1 + d2 <= s) by (subst s e'; lia).
    pose proof (Zdigits2_bounds (Zpos m1) ltac:(lia)) as [Hb1 _].
    pose proof (Zdigits2_bounds (Zpos m2) ltac:(lia)) as [_ Hb2].
    pose proof (Zdigits2_pos (Zpos m1) ltac:(lia)) as Hd1.
    pose proof (Zdigits2_pos (Zpos m2) ltac:(lia)) as Hd2.
    fold d1 in Hb1, Hd1. fold d2 in Hb2, Hd2.
    apply (Zdigits2_ge q 52); [ lia | ].
    assert (Hpow : 2 ^ 52 * 2 ^ d2 <= 2 ^ (d1 - 1) * 2 ^ s).
    { rewrite <- !Z.pow_add_r by lia. apply Z.pow_le_mono_r; lia. }
    assert (H52 : 0 < 2 ^ 52) by reflexivity.
    nia.
Qed.

Lemma SFdiv_rounds_to m1 e1 m2 e2 :
  rounds_to (F2R (Zpos m1) e1 / F2R (Zpos m2) e2)
            (SFdiv prec emax (S754_finite false m1 e1) (S754_finite false m2 e2)).
Proof.
  pose proof (SFdiv_core_spec m1 e1 m2 e2) as Hc.
  cbn [SFdiv xorb].
  destruct (SFdiv_core_binary prec emax (Zpos m1) e1 (Zpos m2) e2) as [[q e'] l].
  destruct Hc as (Hq & Hl & Hd).
  exists q, e', l.
  split; [ exact Hq | split; [ exact Hl | split; [ | reflexivity ] ] ].
  apply enough_digits. exact Hd.
Qed.

(** The same for the square root. *)
Lemma SFsqrt_core_spec m e :
  let '(q, e', l) := SFsqrt_core_binary prec emax (Zpos m) e in
  0 <= q /\
  located (R_sqrt.sqrt (F2R (Zpos m) e)) q e' l /\
  (e' <= -1074 \/ 53 <= Zdigits2 q).
Proof.
  unfold SFsqrt_core_binary.
  set (d := Zdigits2 (Zpos m)).
  set (e' := Z.min (fexp (Z.div2 (d + e + 1))) (Z.div2 e)).
  cbv zeta.
  assert (He2 : 2 * Z.div2 e <= e).
  { rewrite Z.div2_div. pose proof (Z.mul_div_le e 2 ltac:(lia)). lia. }
  assert (Hs : 0 <= e - 2 * e') by (subst e'; lia).
  rewrite (shiftl_pos (Zpos m) (e - 2 * e') Hs).
  set (s := e - 2 * e') in *.
  assert (H2s : 0 < 2 ^ s) by (apply Z.pow_pos_nonneg; lia).
  pose proof (Z.sqrtrem_spec (Zpos m * 2 ^ s) ltac:(nia)) as Hsq.
  pose proof (Z.sqrtrem_sqrt (Zpos m * 2 ^ s)) as Hfst.
  destruct (Z.sqrtrem (Zpos m * 2 ^ s)) as [q r].
  cbn [fst] in Hfst. destruct Hsq as [Hm Hr].
  assert (Hq0 : 0 <= q) by lia.
  split; [ exact Hq0 | split ].
  - pose proof (bpow_pos e') as HB.
    assert (Hv : F2R (Zpos m) e = (IZR (Zpos m * 2 ^ s) * (bpow e' * bpow e'))%R).
    { unfold F2R. rewrite mult_IZR, <- (bpow_IZR s Hs), <- bpow_add.
      rewrite Rmult_assoc, <- bpow_add. f_equal. f_equal. subst s. lia. }
    rewrite Hv, sqrt_mult_alt by (apply IZR_le; nia).
    rewrite sqrt_square by lra.
    assert (Hx0 : (0 <= R_sqrt.sqrt (IZR (Zpos m * 2 ^ s)))%R) by apply sqrt_pos.
    assert (Hxx : (R_sqrt.sqrt (IZR (Zpos m * 2 ^ s)) * R_sqrt.sqrt (IZR (Zpos m * 2 ^ s))
                   = IZR q * IZR q + IZR r)%R).
    { rewrite sqrt_sqrt by (apply IZR_le; nia).
      rewrite <- mult_IZR, <- plus_IZR. f_equal. exact Hm. }
    remember (R_sqrt.sqrt (IZR (Zpos m * 2 ^ s))) as x eqn:Ex. clear Ex Hv.
    assert (HQ : (0 <= IZR q)%R) by (apply IZR_le; exact Hq0).
    assert (HR0 : (0 <= IZR r)%R) by (apply IZR_le; lia).
    assert (HR2 : (IZR r <= 2 * IZR q)%R).
    { rewrite <- mult_IZR. apply IZR_le. lia. }
    unfold located, inb.
    destruct (Z.eqb_spec r 0) as [-> | Hne].
    + cbn [shr_record_of_loc shr_m shr_r shr_s]. cbv zeta.
      assert (x = IZR q) by nra.
      split; [ nra | split; [ intros _; nra | reflexivity ] ].
    + assert (HR1 : (1 <= IZR r)%R) by (apply IZR_le; lia).
      destruct (Z.leb_spec r q) as [Hle | Hgt];
        cbn [shr_record_of_loc shr_m shr_r shr_s]; cbv zeta.
      * apply IZR_le in Hle.
        split; [ nra | split; [ discriminate | intros Hx; exfalso; nra ] ].
      * assert (Hgt' : (IZR q + 1 <= IZR r)%R).
        { rewrite <- plus_IZR. apply IZR_le. lia. }
        split; [ nra | split; [ discriminate | intros Hx; exfalso; nra ] ].
  - destruct (Z_le_gt_dec e' (-1074)) as [Hle | Hgt]; [ left; exact Hle | right ].
    assert (Hf : e' <= Z.div2 (d + e + 1) - 53).
    { subst e'. rewrite fexp_eq in *. lia. }
    assert (Hd2 : 2 * Z.div2 (d + e + 1) <= d + e + 1).
    { rewrite Z.div2_div. pose proof (Z.mul_div_le (d + e + 1) 2 ltac:(lia)). lia. }
    assert (Hs' : 105 - d <= s) by (subst s; lia).
    pose proof (Zdigits2_bounds (Zpos m) ltac:(lia)) as [Hb1 _].
    pose proof (Zdigits2_pos (Zpos m) ltac:(lia)) as Hd1.
    fold d in Hb1, Hd1.
    apply (Zdigits2_ge q 52); [ lia | ].
    assert (Hpow : 2 ^ 104 <= 2 ^ (d - 1) * 2 ^ s).
    { rewrite <- Z.pow_add_r by lia. apply Z.pow_le_mono_r; lia. }
    assert (Hbig : 2 ^ 104 <= Zpos m * 2 ^ s) by nia.
    rewrite Hfst.
    change (2 ^ 52) with (Z.sqrt (2 ^ 104)).
    apply Z.sqrt_le_mono. exact Hbig.
Qed.

Lemma SFsqrt_rounds_to m e :
  rounds_to (R_sqrt.sqrt (F2R (Zpos m) e)) (SFsqrt prec emax (S754_finite false m e)).
Proof.
  pose proof (SFsqrt_core_spec m e) as Hc.
  cbn [SFsqrt].
  destruct (SFsqrt_core_binary prec emax (Zpos m) e) as [[q e'] l].
  destruct Hc as (Hq & Hl & Hd).
  exists q, e', l.
  split; [ exact Hq | split; [ exact Hl | split; [ | reflexivity ] ] ].
  apply enough_digits. exact Hd.
Qed.

(** ** Order and operations on the numbers of the format *)

Lemma SFleb_value m1 e1 m2 e2 :
  SpecFloat.bounded prec emax m1 e1 = true ->
  SpecFloat.bounded prec emax m2 e2 = true ->
  SFleb (S754_finite false m1 e1) (S754_finite false m2 e2) = true ->
  (F2R (Zpos m1) e1 <= F2R (Zpos m2) e2)%R.
Proof.
  intros H1 H2 H.
  destruct (bounded_canonical _ _ H1) as (C1 & _ & _).
  destruct (bounded_canonical _ _ H2) as (C2 & _ & _).
  apply canonical_value_le; [ exact C1 | exact C2 | ].
  unfold lexle; cbn [fst snd].
  unfold SFleb, SFcompare in H.
  destruct (Z.compare_spec e1 e2) as [-> | Hlt | Hgt].
  - right. split; [ reflexivity | ].
    change (PosDef.Pos.compare_cont Eq m1 m2) with (Pos.compare m1 m2) in H.
    destruct (Pos.compare_spec m1 m2); try discriminate; lia.
  - left. exact Hlt.
  - discriminate.
Qed.

Lemma zero_le s g : nonneg g -> SFleb (S754_zero s) g = true.
Proof.
  destruct g as [sg | sg | | sg m e]; cbn; intros Hg;
    try contradiction; try subst sg; reflexivity.
Qed.

Lemma le_inf f : nonneg f -> SFleb f (S754_infinity false) = true.
Proof.
  destruct f as [sf | sf | | sf m e]; cbn; intros Hf;
    try contradiction; try subst sf; reflexivity.
Qed.

(** Steps of the case analyses below: the values behind the comparisons
    at hand, and the goals that differ only by the operation. *)
Ltac values :=
  unfold valid in *; cbn [SpecFloat.valid_binary] in *;
  repeat match goal with
  | H : SFleb (S754_finite false ?m ?e) (S754_finite false ?m' ?e') = true |- _ =>
      apply SFleb_value in H; [ | assumption | assumption ]
  end;
  repeat match goal with
  | H : SpecFloat.bounded prec emax ?m ?e = true |- _ =>
      lazymatch goal with
      | _ : (0 < F2R (Zpos m) e)%R |- _ => fail
      | _ => pose proof (F2R_pos (Zpos m) e (Pos2Z.is_pos m))
      end
  end.

Ltac nn_goal :=
  first [ exact I | reflexivity | eapply rounds_to_nonneg; eassumption ].

Ltac rounded :=
  first [ eassumption | apply rounds_to_self; assumption ].

Ltac le_goal ineq :=
  first
    [ apply zero_le; nn_goal
    | apply le_inf; nn_goal
    | eapply rounds_to_mono; cycle 1; [ rounded | rounded | ineq ] ].

Ltac vle_goal ineq :=
  first
    [ left; reflexivity
    | right; left; reflexivity
    | right; right; split; [ nn_goal | split; [ nn_goal | le_goal ineq ] ] ].

Ltac nonneg_cases x H :=
  destruct x as [? | ? | | ? ? ?]; cbn [nonneg] in H; try contradiction;
  try (subst; [ ]).

(** Each operation keeps the order of operands that are not negative. *)
Lemma SFmul_mono a b x y :
  valid a -> valid b -> valid x -> valid y ->
  vle a b -> vle x y ->
  vle (SFmul prec emax a x) (SFmul prec emax b y).
Proof.
  intros Va Vb Vx Vy [-> | [-> | (Na & Nb & Lab)]];
    [ intros _; left; reflexivity | intros _; right; left; reflexivity | ].
  intros [-> | [-> | (Nx & Ny & Lxy)]];
    [ left; destruct a; reflexivity | right; left; destruct b; reflexivity | ].
  nonneg_cases a Na; nonneg_cases b Nb; try discriminate Lab;
    nonneg_cases x Nx; nonneg_cases y Ny; try discriminate Lxy;
    values;
    repeat match goal with
    | |- context [SFmul prec emax (S754_finite false ?m ?e) (S754_finite false ?m' ?e')] =>
        let Hr := fresh "Hr" in
        let p := fresh "p" in
        let E := fresh "E" in
        pose proof (SFmul_rounds_to m e m' e' ltac:(assumption) ltac:(assumption)) as Hr;
        remember (SFmul prec emax (S754_finite false m e) (S754_finite false m' e'))
          as p eqn:E; clear E
    end;
    cbn [SFmul xorb];
    vle_goal ltac:(apply Rmult_le_compat; lra).
Qed.

Lemma SFadd_pos_rounds_to m e m' e' :
  rounds_to (F2R (Zpos m) e + F2R (Zpos m') e')
            (SFadd prec emax (S754_finite false m e) (S754_finite false m' e')).
Proof.
  apply (SFadd_rounds_to false m e false m' e'). cbn [B2R cond_Zopp].
  pose proof (F2R_pos (Zpos m) e (Pos2Z.is_pos m)).
  pose proof (F2R_pos (Zpos m') e' (Pos2Z.is_pos m')).
  lra.
Qed.

Ltac name_results op lem :=
  repeat match goal with
  | |- context [op prec emax (S754_finite false ?m ?e) (S754_finite false ?m' ?e')] =>
      let Hr := fresh "Hr" in
      let p := fresh "p" in
      let E := fresh "E" in
      pose proof (lem m e m' e') as Hr;
      remember (op prec emax (S754_finite false m e) (S754_finite false m' e'))
        as p eqn:E; clear E
  end.

Ltac split_signs :=
  repeat match goal with
  | |- context [if ?s then _ else _] => is_var s; destruct s
  end.

Lemma SFadd_mono a b x y :
  valid a -> valid b -> valid x -> valid y ->
  vle a b -> vle x y ->
  vle (SFadd prec emax a x) (SFadd prec emax b y).
Proof.
  intros Va Vb Vx Vy [-> | [-> | (Na & Nb & Lab)]];
    [ intros _; left; reflexivity | intros _; right; left; reflexivity | ].
  intros [-> | [-> | (Nx & Ny & Lxy)]];
    [ left; destruct a; reflexivity | right; left; destruct b; reflexivity | ].
  nonneg_cases a Na; nonneg_cases b Nb; try discriminate Lab;
    nonneg_cases x Nx; nonneg_cases y Ny; try discriminate Lxy;
    values;
    name_results SFadd SFadd_pos_rounds_to;
    cbn [SFadd]; split_signs;
    vle_goal ltac:(lra).
Qed.

Lemma SFdiv_mono x y mc ec :
  valid x -> valid y -> vle x y ->
  vle (SFdiv prec emax x (S754_finite false mc ec))
      (SFdiv prec emax y (S754_finite false mc ec)).
Proof.
  intros Vx Vy [-> | [-> | (Nx & Ny & Lxy)]];
    [ left; reflexivity | right; left; reflexivity | ].
  pose proof (F2R_pos (Zpos mc) ec (Pos2Z.is_pos mc)) as Hc.
  nonneg_cases x Nx; nonneg_cases y Ny; try discriminate Lxy;
    values;
    name_results SFdiv SFdiv_rounds_to;
    cbn [SFdiv xorb];
    vle_goal ltac:(apply Rmult_le_compat_r;
                   [ left; apply Rinv_0_lt_compat; assumption | assumption ]).
Qed.

Lemma SFsqrt_mono x y :
  valid x -> valid y -> vle x y ->
  vle (SFsqrt prec emax x) (SFsqrt prec emax y).
Proof.
  intros Vx Vy [-> | [-> | (Nx & Ny & Lxy)]];
    [ left; reflexivity | right; left; reflexivity | ].
  nonneg_cases x Nx; nonneg_cases y Ny; try discriminate Lxy;
    values;
    repeat match goal with
    | |- context [SFsqrt prec emax (S754_finite false ?m ?e)] =>
        let Hr := fresh "Hr" in
        let p := fresh "p" in
        let E := fresh "E" in
        pose proof (SFsqrt_rounds_to m e) as Hr;
        remember (SFsqrt prec emax (S754_finite false m e)) as p eqn:E; clear E
    end;
    cbn [SFsqrt];
    vle_goal ltac:(apply sqrt_le_1_alt; assumption).
Qed.

(** The sign given to [binary_round] is the sign of what it returns. *)
Lemma binary_round_mk p e :
  exists m' e', forall s, binary_round prec emax s p e = mk s m' e'.
Proof.
  unfold binary_round.
  pose proof (shl_align_spec p e (fexp (Zpos (digits2_pos p) + e))) as [Hs Hf].
  destruct (shl_align p e (fexp (Zpos (digits2_pos p) + e))) as [mz ez].
  cbn [fst snd] in Hs, Hf.
  change (Zpos (digits2_pos p)) with (Zdigits2 (Zpos p)) in *.
  eexists. eexists. intros s.
  apply (binary_round_aux_out s (F2R (Zpos mz) ez)).
  - lia.
  - apply located_exact.
  - rewrite Hf, Zdigits2_shift by lia. subst ez.
    replace (Zdigits2 (Zpos p) + (e - Z.min e (fexp (Zdigits2 (Zpos p) + e)))
             + Z.min e (fexp (Zdigits2 (Zpos p) + e)))
      with (Zdigits2 (Zpos p) + e) by lia.
    lia.
Qed.

Lemma mk_true_not_positive m e : SFltb (S754_zero false) (mk true m e) = false.
Proof. unfold mk. destruct m; [ | destruct (e <=? 971) | ]; reflexivity. Qed.

Lemma SFleb_B2R x y :
  valid x -> valid y -> finite_class x = true -> finite_class y = true ->
  SFleb x y = true -> (B2R x <= B2R y)%R.
Proof.
  intros Vx Vy Fx Fy L.
  destruct x as [sx | | | sx mx ex]; try discriminate Fx;
    destruct y as [sy | | | sy my ey]; try discriminate Fy;
    unfold valid in *; cbn [SpecFloat.valid_binary] in *;
    cbn [B2R]; rewrite ?F2R_cond_Zopp.
  - lra.
  - pose proof (F2R_pos (Zpos my) ey (Pos2Z.is_pos my)).
    destruct sy; [ discriminate L | lra ].
  - pose proof (F2R_pos (Zpos mx) ex (Pos2Z.is_pos mx)).
    destruct sx; [ lra | discriminate L ].
  - pose proof (F2R_pos (Zpos mx) ex (Pos2Z.is_pos mx)).
    pose proof (F2R_pos (Zpos my) ey (Pos2Z.is_pos my)).
    destruct sx, sy.
    + apply Ropp_le_contravar.
      destruct (bounded_canonical _ _ Vx) as (C1 & _ & _).
      destruct (bounded_canonical _ _ Vy) as (C2 & _ & _).
      apply canonical_value_le; [ exact C2 | exact C1 | ].
      unfold lexle; cbn [fst snd].
      unfold SFleb, SFcompare in L.
      destruct (Z.compare_spec ex ey) as [-> | Hlt | Hgt].
      * right. split; [ reflexivity | ].
        change (PosDef.Pos.compare_cont Eq mx my) with (Pos.compare mx my) in L.
        destruct (Pos.compare_spec mx my); try discriminate; lia.
      * discriminate.
      * left. exact Hgt.
    + lra.
    + discriminate L.
    + apply SFleb_value; assumption.
Qed.

(** A difference that compares above zero is the rounding of a positive
    real difference. *)
Lemma SFsub_positive x y :
  finite_class x = true -> finite_class y = true ->
  SFltb (S754_zero false) (SFsub prec emax x y) = true ->
  (0 < B2R x - B2R y)%R.
Proof.
  intros Fx Fy Hpos.
  destruct x as [sx | | | sx mx ex]; try discriminate Fx;
    destruct y as [sy | | | sy my ey]; try discriminate Fy.
  - destruct sx, sy; discriminate Hpos.
  - pose proof (F2R_pos (Zpos my) ey (Pos2Z.is_pos my)).
    cbn [B2R]. rewrite F2R_cond_Zopp.
    destruct sy; [ lra | discriminate Hpos ].
  - pose proof (F2R_pos (Zpos mx) ex (Pos2Z.is_pos mx)).
    cbn [B2R]. rewrite F2R_cond_Zopp.
    destruct sx; [ discriminate Hpos | lra ].
  - rewrite <- SFsub_value. cbv zeta. unfold SFsub in Hpos.
    destruct (cond_Zopp sx (Zpos (fst (shl_align mx ex (Z.min ex ey))))
              - cond_Zopp sy (Zpos (fst (shl_align my ey (Z.min ex ey)))))
      as [ | p | p ].
    + discriminate Hpos.
    + apply F2R_pos. lia.
    + cbn [binary_normalize] in Hpos.
      destruct (binary_round_mk p (Z.min ex ey)) as (m' & e' & Hmk).
      rewrite Hmk, mk_true_not_positive in Hpos. discriminate Hpos.
Qed.

Lemma SFsub_finite_rounds_to x y :
  valid x -> valid y -> finite_class x = true -> finite_class y = true ->
  (0 < B2R x - B2R y)%R ->
  rounds_to (B2R x - B2R y) (SFsub prec emax x y).
Proof.
  intros Vx Vy Fx Fy Hpos.
  destruct x as [sx | | | sx mx ex]; try discriminate Fx;
    destruct y as [sy | | | sy my ey]; try discriminate Fy;
    unfold valid in *; cbn [SpecFloat.valid_binary] in *.
  - cbn [B2R] in Hpos. lra.
  - pose proof (F2R_pos (Zpos my) ey (Pos2Z.is_pos my)).
    cbn [B2R] in *. rewrite F2R_cond_Zopp in *.
    destruct sy; [ | lra ].
    replace (0 - - F2R (Zpos my) ey)%R with (F2R (Zpos my) ey) by ring.
    cbn [SFsub negb]. apply rounds_to_self. exact Vy.
  - pose proof (F2R_pos (Zpos mx) ex (Pos2Z.is_pos mx)).
    cbn [B2R] in *. rewrite F2R_cond_Zopp in *.
    destruct sx; [ lra | ].
    replace (F2R (Zpos mx) ex - 0)%R with (F2R (Zpos mx) ex) by ring.
    cbn [SFsub]. apply rounds_to_self. exact Vx.
  - apply SFsub_rounds_to. exact Hpos.
Qed.

(** With a positive difference [e - i], a minuend [e'] at least [e] gives
    a difference [e' - i] that is not smaller. *)
Lemma SFsub_mono e e' i :
  valid e -> valid e' -> valid i ->
  SFleb e e' = true ->
  SFltb (S754_zero false) (SFsub prec emax e i) = true ->
  vle (SFsub prec emax e i) (SFsub prec emax e' i).
Proof.
  intros Ve Ve' Vi Lab Hpos.
  destruct (finite_class i) eqn:Fi.
  - destruct (finite_class e) eqn:Fe; [ destruct (finite_class e') eqn:Fe' | ].
    + pose proof (SFleb_B2R e e' Ve Ve' Fe Fe' Lab) as Hle.
      pose proof (SFsub_positive e i Fe Fi Hpos) as Hd.
      right; right.
      assert (R1 : rounds_to (B2R e - B2R i) (SFsub prec emax e i))
        by (apply SFsub_finite_rounds_to; assumption).
      assert (R2 : rounds_to (B2R e' - B2R i) (SFsub prec emax e' i))
        by (apply SFsub_finite_rounds_to; try assumption; lra).
      split; [ exact (rounds_to_nonneg _ _ R1) | ].
      split; [ exact (rounds_to_nonneg _ _ R2) | ].
      refine (rounds_to_mono _ _ _ _ _ R1 R2). lra.
    + pose proof (SFsub_positive e i Fe Fi Hpos) as Hd.
      assert (R1 : rounds_to (B2R e - B2R i) (SFsub prec emax e i))
        by (apply SFsub_finite_rounds_to; assumption).
      apply rounds_to_nonneg in R1.
      destruct e' as [ | [ | ] | | ]; try discriminate Fe'.
      * destruct e; try discriminate Fe; cbn in Lab; try discriminate Lab;
          match goal with b : bool |- _ => destruct b; discriminate Lab end.
      * right; right.
        replace (SFsub prec emax (S754_infinity false) i) with (S754_infinity false)
          by (destruct i; try discriminate Fi; reflexivity).
        split; [ exact R1 | split; [ reflexivity | apply le_inf; exact R1 ] ].
      * destruct e; discriminate Lab.
    + destruct e as [ | [ | ] | | ]; try discriminate Fe.
      * destruct i; try discriminate Fi; discriminate Hpos.
      * destruct e' as [ | [ | ] | | ]; try discriminate Lab.
        right; right.
        replace (SFsub prec emax (S754_infinity false) i) with (S754_infinity false)
          by (destruct i; try discriminate Fi; reflexivity).
        split; [ reflexivity | split; reflexivity ].
      * discriminate Lab.
  - destruct i as [ | [ | ] | | ]; try discriminate Fi.
    + destruct e as [ | [ | ] | | [ | ] ], e' as [ | [ | ] | | [ | ] ];
        try discriminate Lab; try discriminate Hpos;
        cbn [SFsub negb]; right; right;
        (split; [ reflexivity | split; reflexivity ]).
    + destruct e as [ | [ | ] | | ]; discriminate Hpos.
    + destruct e; discriminate Hpos.
Qed.

(** The number one. *)
Lemma F2R_one : F2R 4503599627370496 (-52) = 1%R.
Proof.
  unfold F2R. change 4503599627370496 with (2 ^ 52).
  rewrite <- (bpow_IZR 52) by lia. rewrite <- bpow_add. reflexivity.
Qed.

Lemma at_least_one c :
  valid c -> SFleb (S754_finite false 4503599627370496 (-52)) c = true ->
  c = S754_infinity false \/
  exists m e, c = S754_finite false m e /\ (1 <= F2R (Zpos m) e)%R.
Proof.
  intros Vc L. destruct c as [s | [ | ] | | [ | ] m e]; try discriminate L.
  - left. reflexivity.
  - right. exists m, e. split; [ reflexivity | ].
    rewrite <- F2R_one. apply SFleb_value; [ reflexivity | exact Vc | exact L ].
Qed.

Ltac name_products :=
  repeat match goal with
  | |- context [SFmul prec emax (S754_finite false ?m ?e) (S754_finite false ?m' ?e')] =>
      let Hr := fresh "Hr" in
      let p := fresh "p" in
      let E := fresh "E" in
      pose proof (SFmul_rounds_to m e m' e' ltac:(assumption) ltac:(assumption)) as Hr;
      remember (SFmul prec emax (S754_finite false m e) (S754_finite false m' e'))
        as p eqn:E; clear E
  end.

(** A factor of at least one does not lower what it multiplies, a
    divisor of at least one does not raise what it divides. *)
Lemma SFmul_ge_self x c :
  valid x -> valid c -> vle x x ->
  SFleb (S754_finite false 4503599627370496 (-52)) c = true ->
  vle x (SFmul prec emax x c).
Proof.
  intros Vx Vc [-> | [-> | (Nx & _ & _)]] L;
    [ left; reflexivity | left; reflexivity | ].
  destruct (at_least_one c Vc L) as [-> | (m & e & -> & Hc)];
    nonneg_cases x Nx; values;
    name_products;
    cbn [SFmul xorb];
    vle_goal ltac:(nra).
Qed.


Lemma SFdiv_le_self x c :
  valid x -> valid c -> vle x x ->
  SFleb (S754_finite false 4503599627370496 (-52)) c = true ->
  vle (SFdiv prec emax x c) x.
Proof.
  intros Vx Vc [-> | [-> | (Nx & _ & _)]] L;
    [ left; reflexivity | left; reflexivity | ].
  destruct (at_least_one c Vc L) as [-> | (m & e & -> & Hc)];
    nonneg_cases x Nx; values;
    name_results SFdiv SFdiv_rounds_to;
    cbn [SFdiv xorb];
    vle_goal ltac:(
      idtac;
      match goal with
      | |- (?a / ?b <= ?a)%R =>
          apply (Rmult_le_reg_r b); [ lra | ];
          unfold Rdiv; rewrite Rmult_assoc, Rinv_l by lra; nra
      end).
Qed.

(** What is above zero stays above zero under a factor of at least
    one. *)
Lemma SFmul_positive x c :
  valid x -> valid c ->
  SFltb (S754_zero false) x = true ->
  SFleb (S754_finite false 4503599627370496 (-52)) c = true ->
  SFltb (S754_zero false) (SFmul prec emax x c) = true.
Proof.
  intros Vx Vc Hx L.
  destruct (at_least_one c Vc L) as [-> | (m & e & -> & Hc)];
    destruct x as [sx | [ | ] | | [ | ] mx ex]; try discriminate Hx;
    try reflexivity.
  unfold valid in *; cbn [SpecFloat.valid_binary] in *.
  pose proof (F2R_pos (Zpos mx) ex (Pos2Z.is_pos mx)) as Hpos.
  pose proof (SFmul_rounds_to mx ex m e Vx Vc) as Hr.
  pose proof (rounds_to_self mx ex Vx) as Hs.
  assert (Hle : SFleb (S754_finite false mx ex)
                  (SFmul prec emax (S754_finite false mx ex) (S754_finite false m e)) = true)
    by (refine (rounds_to_mono _ _ _ _ _ Hs Hr); nra).
  apply rounds_to_nonneg in Hr.
  destruct (SFmul prec emax (S754_finite false mx ex) (S754_finite false m e))
    as [s | s | | s m' e']; cbn [nonneg] in Hr; try contradiction; try subst s;
    try reflexivity; discriminate Hle.
Qed.

(** Division by a positive number keeps the order. *)
Lemma SFdiv_mono_positive x y c :
  valid x -> valid y ->
  SFltb (S754_zero false) c = true ->
  vle x y ->
  vle (SFdiv prec emax x c) (SFdiv prec emax y c).
Proof.
  intros Vx Vy Hc Hxy.
  destruct c as [s | [ | ] | | [ | ] m e]; try discriminate Hc.
  - destruct Hxy as [-> | [-> | (Nx & Ny & Lxy)]];
      [ left; reflexivity | right; left; reflexivity | ].
    nonneg_cases x Nx; nonneg_cases y Ny; try discriminate Lxy;
      cbn [SFdiv xorb]; vle_goal ltac:(lra).
  - apply SFdiv_mono; assumption.
Qed.

(** A number that is neither NaN nor a zero. *)
Lemma vle_refl_not_negative x : vle x x -> SFltb x (S754_zero false) = false.
Proof.
  intros [-> | [-> | (Nx & _ & _)]]; try reflexivity.
  nonneg_cases x Nx; reflexivity.
Qed.

Lemma vle_zero x : vle x x -> vle (S754_zero false) x.
Proof.
  intros [-> | [-> | (Nx & _ & _)]];
    [ right; left; reflexivity | right; left; reflexivity | ].
  right; right. split; [ exact I | split; [ exact Nx | apply zero_le; exact Nx ] ].
Qed.

Lemma at_least_one_refl c :
  valid c -> SFleb (S754_finite false 4503599627370496 (-52)) c = true -> vle c c.
Proof.
  intros Vc L. destruct (at_least_one c Vc L) as [-> | (m & e & -> & Hc)];
    right; right; (split; [ reflexivity | split; [ reflexivity | ] ]).
  - reflexivity.
  - pose proof (rounds_to_self m e Vc) as Hr.
    exact (rounds_to_mono _ _ _ _ (Rle_refl _) Hr Hr).
Qed.

(** The comparison of the format on operands that are not negative. *)
Lemma SFleb_vle x y :
  SFltb x (S754_zero false) = false -> SFleb x y = true -> vle x y.
Proof.
  intros Hx L. right; right.
  destruct x as [sx | [ | ] | | [ | ] mx ex]; try discriminate Hx; try discriminate L;
    destruct y as [sy | [ | ] | | [ | ] my ey]; try discriminate L;
    (split; [ try exact I; reflexivity | split; [ try exact I; reflexivity | exact L ] ]).
Qed.

End Rounding.

(** ** binary64: the loads as functions of the external temperature *)

Section Monotone.
Import Round.

(** The order on the primitive floats, through [FloatAxioms]. *)
Lemma fle_mul a b x y :
  fle a b -> fle x y -> fle (PrimFloat.mul a x) (PrimFloat.mul b y).
Proof.
  unfold fle. rewrite !mul_spec. apply Rounding.SFmul_mono; apply Prim2SF_valid.
Qed.

Lemma fle_add a b x y :
  fle a b -> fle x y -> fle (PrimFloat.add a x) (PrimFloat.add b y).
Proof.
  unfold fle. rewrite !add_spec. apply Rounding.SFadd_mono; apply Prim2SF_valid.
Qed.

Lemma fle_div x y c :
  positive_finite (Prim2SF c) = true ->
  fle x y -> fle (PrimFloat.div x c) (PrimFloat.div y c).
Proof.
  intros Hc. unfold fle. rewrite !div_spec.
  destruct (Prim2SF c) as [ | | | [ | ] m e ]; try discriminate Hc.
  apply Rounding.SFdiv_mono; apply Prim2SF_valid.
Qed.

Lemma fle_sqrt x y : fle x y -> fle (PrimFloat.sqrt x) (PrimFloat.sqrt y).
Proof.
  unfold fle. rewrite !sqrt_spec. apply Rounding.SFsqrt_mono; apply Prim2SF_valid.
Qed.

Lemma fle_sub e e' i :
  PrimFloat.leb e e' = true ->
  PrimFloat.ltb 0 (PrimFloat.sub e i) = true ->
  fle (PrimFloat.sub e i) (PrimFloat.sub e' i).
Proof.
  rewrite leb_spec, ltb_spec, sub_spec. unfold fle. rewrite !sub_spec.
  apply Rounding.SFsub_mono; apply Prim2SF_valid.
Qed.

(** The two comparisons of the statements in terms of that order. *)
Lemma notNegative_fle c : notNegative c -> fle c c.
Proof.
  unfold notNegative, notBelow, fle. rewrite ltb_spec.
  change (Prim2SF 0) with (S754_zero false).
  pose proof (Prim2SF_valid c) as Hv.
  destruct (Prim2SF c) as [s | [ | ] | | [ | ] m e]; intros Hc;
    try discriminate Hc.
  - right; right. split; [ exact I | split; [ exact I | reflexivity ] ].
  - right; right. split; [ reflexivity | split; reflexivity ].
  - left. reflexivity.
  - right; right. split; [ reflexivity | split; [ reflexivity | ] ].
    pose proof (Rounding.rounds_to_self m e Hv) as Hr.
    exact (Rounding.rounds_to_mono _ _ _ _ (Rle_refl _) Hr Hr).
Qed.

Lemma SFleb_not_SFltb x y :
  nonneg x -> nonneg y -> SFleb x y = true -> SFltb y x = false.
Proof.
  destruct x as [sx | sx | | sx mx ex], y as [sy | sy | | sy my ey];
    cbn [nonneg]; intros Nx Ny; try contradiction; subst;
    try reflexivity; try discriminate.
  unfold SFleb, SFltb, SFcompare.
  rewrite (Z.compare_antisym ex ey).
  change (PosDef.Pos.compare_cont Eq my mx) with (Pos.compare my mx).
  change (PosDef.Pos.compare_cont Eq mx my) with (Pos.compare mx my).
  rewrite (Pos.compare_antisym mx my).
  destruct (ex ?= ey); cbn [CompOpp]; try congruence.
  destruct (mx ?= my)%positive; cbn [CompOpp]; congruence.
Qed.

Lemma fle_notBelow x y : fle x y -> notBelow x y.
Proof.
  unfold fle, notBelow. rewrite ltb_spec.
  intros [Hx | [Hy | (Nx & Ny & L)]].
  - rewrite Hx. destruct (Prim2SF y); reflexivity.
  - rewrite Hy. reflexivity.
  - apply SFleb_not_SFltb; assumption.
Qed.

Lemma fle_lit (d : decimal) :
  PrimFloat.ltb (lit d) 0 = false -> fle (lit d) (lit d).
Proof. apply notNegative_fle. Qed.

(** A formula built from sums, products, square roots and quotients by
    positive numerals: one rule for each operation. *)
Ltac monotone :=
  repeat match goal with
  | H : fle ?a ?b |- fle ?a' ?b' => constr_eq a a'; constr_eq b b'; exact H
  | |- fle (lit ?d) (lit ?d') =>
      constr_eq d d'; apply fle_lit; vm_compute; reflexivity
  | H : notNegative ?c |- fle ?a ?b =>
      constr_eq a b; constr_eq a c; apply notNegative_fle; exact H
  | |- fle (PrimFloat.add _ _) (PrimFloat.add _ _) => apply fle_add
  | |- fle (PrimFloat.mul _ _) (PrimFloat.mul _ _) => apply fle_mul
  | |- fle (PrimFloat.sqrt _) (PrimFloat.sqrt _) => apply fle_sqrt
  | |- fle (PrimFloat.div _ (lit ?d)) (PrimFloat.div _ (lit _)) =>
      apply fle_div; [ vm_compute; reflexivity | ]
  end.

(** C6, amended. In binary64, when no dimension and no constant is
    negative and the temperature difference is positive: a call that
    differs only by an external temperature the function reads as at
    least as high gives a transmission total, an air-infiltration load and
    a door load none of which is below that of the first call. *)
Theorem loads_do_not_decrease_with_externalTemp
  (THERMAL_DATA : ThermalData.t float) (PRODUCTS : gmap string (Product.t float))
  (STORAGE_FACTORS : gmap string float)
  roomData conditionsData productData (warmer : string) :
  let calculate := calculateColdRoomLoad THERMAL_DATA PRODUCTS STORAGE_FACTORS in
  let conditionsData' := withExternalTemp warmer conditionsData in
  let v := parseInputs roomData conditionsData productData in
  let v' := parseInputs roomData conditionsData' productData in
  hasGeneralFoodItems PRODUCTS ->
  nowhereNegative THERMAL_DATA v ->
  PrimFloat.ltb 0 (JS.sub (Inputs.externalTemp v) (Inputs.internalTemp v)) = true ->
  PrimFloat.leb (Inputs.externalTemp v) (Inputs.externalTemp v') = true ->
  exists r r',
    calculate roomData conditionsData productData = normal r /\
    calculate roomData conditionsData' productData = normal r' /\
    notBelow (TransmissionLoad.total (LoadResult.transmissionLoad r))
             (TransmissionLoad.total (LoadResult.transmissionLoad r')) /\
    notBelow (LoadResult.airInfiltrationLoad r) (LoadResult.airInfiltrationLoad r') /\
    notBelow (LoadResult.doorLoad r) (LoadResult.doorLoad r').
Proof.
  intros calculate conditionsData' v v' Hg Hnn Hdiff Hwarmer.
  pose proof (lookupProduct_defined PRODUCTS (ProductData.productType productData) Hg) as Hp.
  assert (Htd : fle (PrimFloat.sub (Inputs.externalTemp v) (Inputs.internalTemp v))
                    (PrimFloat.sub (Inputs.externalTemp v') (Inputs.internalTemp v)))
    by (apply fle_sub; assumption).
  destruct Hnn as (Hl & Hw & Hh & Hdw & Hdh & Hdo & Hu & Had & Hash & Hacr).
  subst calculate. unfold calculateColdRoomLoad.
  fold v v'.
  destruct (lookupProduct PRODUCTS (ProductData.productType productData)) as [|p|k];
    [ now contradict Hp | .. ];
    (do 2 eexists; split; [ reflexivity | split; [ reflexivity | ] ]);
    cbn [LoadResult.transmissionLoad TransmissionLoad.total
         LoadResult.airInfiltrationLoad LoadResult.doorLoad].
  all: change (Inputs.length v') with (Inputs.length v);
       change (Inputs.width v') with (Inputs.width v);
       change (Inputs.height v') with (Inputs.height v);
       change (Inputs.doorWidth v') with (Inputs.doorWidth v);
       change (Inputs.doorHeight v') with (Inputs.doorHeight v);
       change (Inputs.doorOpenings v') with (Inputs.doorOpenings v);
       change (Inputs.insulationType v') with (Inputs.insulationType v);
       change (Inputs.insulationThickness v') with (Inputs.insulationThickness v);
       change (Inputs.internalTemp v') with (Inputs.internalTemp v).
  all: cbn [JS.mul JS.add JS.sub JS.div JS.sqrt float_JSNumber].
  all: split; [ | split ]; apply fle_notBelow; monotone.
Qed.

End Monotone.

(** ** What the call does at its edges *)

Section Behaviour.
Context {num : Type} `{JSNumber num}.
Variable THERMAL_DATA : ThermalData.t num.
Variable PRODUCTS : gmap string (Product.t num).
Variable STORAGE_FACTORS : gmap string num.

Abbreviation calculate := (calculateColdRoomLoad THERMAL_DATA PRODUCTS STORAGE_FACTORS).

Lemma get_is_undefined {A} (o : gmap string A) k :
  get o k = undefined <-> o !! k = None /\ k ∉ objectPrototype.
Proof.
  unfold get. destruct (o !! k) as [a | ].
  - split; [ discriminate | intros [E _]; discriminate E ].
  - destruct (bool_decide (k ∈ objectPrototype)) eqn:E.
    + apply bool_decide_eq_true_1 in E.
      split; [ discriminate | intros [_ N]; contradiction ].
    + apply bool_decide_eq_false_1 in E. split; auto.
Qed.

(** X6. Lines 78 and 82: the only failure.  The call throws a TypeError
    exactly when the products table has neither the key passed, be it
    as a member of [Object.prototype], nor "General Food Items"; in every
    other case it returns a result. *)
Theorem throws_exactly_without_a_product roomData conditionsData productData :
  let productType := ProductData.productType productData in
  (calculate roomData conditionsData productData = throw TypeError <->
   PRODUCTS !! productType = None /\ (productType ∉ objectPrototype) /\
   PRODUCTS !! "General Food Items" = None) /\
  ((exists r, calculate roomData conditionsData productData = normal r) <->
   ~ (PRODUCTS !! productType = None /\ (productType ∉ objectPrototype) /\
      PRODUCTS !! "General Food Items" = None)).
Proof.
  intros productType.
  assert (Hl : lookupProduct PRODUCTS productType = undefined <->
               PRODUCTS !! productType = None /\ (productType ∉ objectPrototype) /\
               PRODUCTS !! "General Food Items" = None).
  { unfold lookupProduct, orElseValue.
    destruct (get PRODUCTS productType) as [ | p | k ] eqn:E; cbn [truthy].
    - apply get_is_undefined in E as [E1 E2].
      rewrite get_is_undefined. split.
      + intros [G _]. auto.
      + intros (_ & _ & G). split; [ exact G | ].
        apply (bool_decide_eq_false_1 ("General Food Items" ∈ objectPrototype)).
        vm_compute. reflexivity.
    - split; [ discriminate | ].
      intros (E1 & E2 & _).
      assert (U : get PRODUCTS productType = undefined)
        by (apply get_is_undefined; auto).
      congruence.
    - split; [ discriminate | ].
      intros (E1 & E2 & _).
      assert (U : get PRODUCTS productType = undefined)
        by (apply get_is_undefined; auto).
      congruence. }
  unfold calculateColdRoomLoad. fold productType.
  destruct (lookupProduct PRODUCTS productType) as [ | p | k ].
  - split; [ split; [ intros _; apply Hl; reflexivity | reflexivity ] | ].
    split; [ intros [r Hr]; discriminate Hr | ].
    intros N. exfalso. apply N, Hl. reflexivity.
  - split; [ split; [ discriminate | intros E; apply Hl in E; discriminate E ] | ].
    split; [ intros _ E; apply Hl in E; discriminate E | intros _; eexists; reflexivity ].
  - split; [ split; [ discriminate | intros E; apply Hl in E; discriminate E ] | ].
    split; [ intros _ E; apply Hl in E; discriminate E | intros _; eexists; reflexivity ].
Qed.

(** X7. Line 79 and lines 139-144: the storage type is used for the
    storage capacity and for nothing else.  Two calls that differ only
    by [storageType] return results that differ only by
    [storageCapacity]: no load and no total depends on it. *)
Theorem storageType_changes_storageCapacity_only :
  hasGeneralFoodItems PRODUCTS ->
  forall roomData conditionsData productData storageType,
  exists r r',
    calculate roomData conditionsData productData = normal r /\
    calculate roomData conditionsData (withStorageType storageType productData) = normal r' /\
    r' = withStorageCapacity (LoadResult.storageCapacity r') r.
Proof.
  intros Hg roomData conditionsData productData storageType.
  pose proof (lookupProduct_defined PRODUCTS (ProductData.productType productData) Hg) as Hp.
  unfold calculateColdRoomLoad.
  change (ProductData.productType (withStorageType storageType productData))
    with (ProductData.productType productData).
  destruct (lookupProduct PRODUCTS (ProductData.productType productData)) as [ | p | k ];
    [ now contradict Hp | .. ];
    (do 2 eexists; split; [ reflexivity | split; [ reflexivity | reflexivity ] ]).
Qed.

End Behaviour.

(** ** binary64: sizing *)

Section Sizing.
Import Round.

Lemma orElse_truthy {num} `{JSNumber num} (x d : num) :
  toBoolean d = true -> toBoolean (orElse x d) = true.
Proof. intros Hd. unfold orElse. now destruct (toBoolean x) eqn:E. Qed.

Lemma toBoolean_neitherZeroNorNaN (x : float) :
  toBoolean x = true -> neitherZeroNorNaN x.
Proof.
  cbn [toBoolean float_JSNumber]. unfold float_toBoolean, neitherZeroNorNaN.
  now destruct (PrimFloat.is_nan x), (PrimFloat.is_zero x).
Qed.

Lemma neitherZeroNorNaN_cases (x : float) :
  neitherZeroNorNaN x ->
  exists s, Prim2SF x = S754_infinity s \/ exists m e, Prim2SF x = S754_finite s m e.
Proof.
  unfold neitherZeroNorNaN, PrimFloat.is_nan, PrimFloat.is_zero.
  rewrite !FloatAxioms.eqb_spec. change (Prim2SF zero) with (S754_zero false).
  destruct (Prim2SF x) as [s | s | | s m e]; intros [Hn Hz]; try discriminate.
  - exists s. left. reflexivity.
  - exists s. right. exists m, e. reflexivity.
Qed.

Lemma fle_notNegative x : fle x x -> notNegative x.
Proof.
  unfold fle, notNegative, notBelow. rewrite ltb_spec.
  change (Prim2SF 0) with (S754_zero false). apply Rounding.vle_refl_not_negative.
Qed.

Lemma fle_div_positive x y c :
  PrimFloat.ltb 0 c = true -> fle x y -> fle (PrimFloat.div x c) (PrimFloat.div y c).
Proof.
  intros Hc Hxy. rewrite ltb_spec in Hc.
  change (Prim2SF 0) with (S754_zero false) in Hc.
  unfold fle in *. rewrite !div_spec.
  apply Rounding.SFdiv_mono_positive; try apply Prim2SF_valid; assumption.
Qed.

Lemma ltb_mul_positive x c :
  PrimFloat.ltb 0 x = true -> PrimFloat.leb 1 c = true ->
  PrimFloat.ltb 0 (PrimFloat.mul x c) = true.
Proof.
  intros Hx Hc. rewrite ltb_spec in *. rewrite leb_spec in Hc. rewrite mul_spec.
  change (Prim2SF 0) with (S754_zero false) in *.
  change (Prim2SF 1) with (S754_finite false 4503599627370496 (-52)) in Hc.
  apply Rounding.SFmul_positive; try apply Prim2SF_valid; assumption.
Qed.

Lemma fle_mul_ge_self x c :
  fle x x -> PrimFloat.leb 1 c = true -> fle x (PrimFloat.mul x c).
Proof.
  intros Hx Hc. rewrite leb_spec in Hc. unfold fle in *. rewrite mul_spec.
  change (Prim2SF 1) with (S754_finite false 4503599627370496 (-52)) in Hc.
  apply Rounding.SFmul_ge_self; try apply Prim2SF_valid; assumption.
Qed.

Lemma fle_div_le_self x c :
  fle x x -> PrimFloat.leb 1 c = true -> fle (PrimFloat.div x c) x.
Proof.
  intros Hx Hc. rewrite leb_spec in Hc. unfold fle in *. rewrite div_spec.
  change (Prim2SF 1) with (S754_finite false 4503599627370496 (-52)) in Hc.
  apply Rounding.SFdiv_le_self; try apply Prim2SF_valid; assumption.
Qed.

Lemma fle_at_least_one c : PrimFloat.leb 1 c = true -> fle c c.
Proof.
  intros Hc. rewrite leb_spec in Hc. unfold fle.
  change (Prim2SF 1) with (S754_finite false 4503599627370496 (-52)) in Hc.
  apply Rounding.at_least_one_refl; [ apply Prim2SF_valid | exact Hc ].
Qed.


Lemma add_nan_l (x : float) : (PrimFloat.nan + x)%js = PrimFloat.nan.
Proof.
  apply float_is_nan. cbn [add float_JSNumber].
  rewrite add_spec. now change (Prim2SF PrimFloat.nan) with S754_nan.
Qed.

Lemma div_nan_r (x : float) : (x / PrimFloat.nan)%js = PrimFloat.nan.
Proof.
  apply float_is_nan. cbn [div float_JSNumber].
  rewrite div_spec. change (Prim2SF PrimFloat.nan) with S754_nan.
  now destruct (Prim2SF x).
Qed.

Lemma infinity_isInfinite (x : float) s : Prim2SF x = S754_infinity s -> isInfinite x.
Proof.
  intros Hx. destruct s; [ right | left ]; apply Prim2SF_inj; rewrite Hx; reflexivity.
Qed.

Lemma is_zero_cases (x : float) :
  PrimFloat.is_zero x = true -> exists s, Prim2SF x = S754_zero s.
Proof.
  unfold PrimFloat.is_zero. rewrite FloatAxioms.eqb_spec.
  change (Prim2SF zero) with (S754_zero false).
  destruct (Prim2SF x) as [s | s | | s m e]; try discriminate.
  - intros _. exists s. reflexivity.
  - destruct s; discriminate.
  - destruct s; discriminate.
Qed.

(** Line 83 with a capacity of zero. *)
Lemma utilization_of_zero_capacity (dailyLoad maximum : float) :
  neitherZeroNorNaN dailyLoad -> PrimFloat.is_zero maximum = true ->
  isInfinite (PrimFloat.mul (PrimFloat.div dailyLoad maximum) (lit 100)).
Proof.
  intros Hd Hz.
  apply neitherZeroNorNaN_cases in Hd as [s Hd].
  apply is_zero_cases in Hz as [sz Hz].
  apply (infinity_isInfinite _ (xorb (xorb s sz) false)).
  rewrite mul_spec, div_spec, Hz.
  change (Prim2SF (lit 100)) with (S754_finite false 7036874417766400 (-46)).
  destruct Hd as [-> | (m & e & ->)]; reflexivity.
Qed.

(** X8. Lines 40-60 and 75: after defaulting, no numeric input and no
    U-factor is NaN or zero, whatever was passed and whatever the tables
    hold. *)
Theorem inputs_are_never_zero_or_NaN (THERMAL_DATA : ThermalData.t float)
  (roomData : RoomData.t float) conditionsData productData :
  let v := parseInputs roomData conditionsData productData in
  neitherZeroNorNaN (Inputs.length v) /\
  neitherZeroNorNaN (Inputs.width v) /\
  neitherZeroNorNaN (Inputs.height v) /\
  neitherZeroNorNaN (Inputs.doorWidth v) /\
  neitherZeroNorNaN (Inputs.doorHeight v) /\
  neitherZeroNorNaN (Inputs.doorOpenings v) /\
  neitherZeroNorNaN (Inputs.insulationThickness v) /\
  neitherZeroNorNaN (Inputs.externalTemp v) /\
  neitherZeroNorNaN (Inputs.internalTemp v) /\
  neitherZeroNorNaN (Inputs.operatingHours v) /\
  neitherZeroNorNaN (Inputs.pullDownTime v) /\
  neitherZeroNorNaN (Inputs.dailyLoad v) /\
  neitherZeroNorNaN (Inputs.incomingTemp v) /\
  neitherZeroNorNaN (Inputs.outgoingTemp v) /\
  neitherZeroNorNaN (Inputs.numberOfPeople v) /\
  neitherZeroNorNaN (Inputs.workingHours v) /\
  neitherZeroNorNaN (Inputs.lightingWattage v) /\
  neitherZeroNorNaN (Inputs.equipmentLoad v) /\
  neitherZeroNorNaN (lookupUFactor THERMAL_DATA (Inputs.insulationType v)
                       (Inputs.insulationThickness v)).
Proof.
  intros v.
  repeat match goal with |- _ /\ _ => split end;
    apply toBoolean_neitherZeroNorNaN;
    try (apply orElse_truthy; vm_compute; reflexivity).
  unfold lookupUFactor.
  destruct (get (ThermalData.uFactors THERMAL_DATA) (Inputs.insulationType v))
    as [ | byThickness | k ]; try (vm_compute; reflexivity).
  destruct (byThickness (Inputs.insulationThickness v)) as [ u | ];
    [ apply orElse_truthy | ]; vm_compute; reflexivity.
Qed.


(** X9. Line 83: a storage capacity of zero raises nothing.  The daily
    load is never zero or NaN after defaulting, so the utilization is
    plus or minus Infinity. *)
Theorem zero_capacity_gives_infinite_utilization
  (THERMAL_DATA : ThermalData.t float) (PRODUCTS : gmap string (Product.t float))
  (STORAGE_FACTORS : gmap string float) :
  hasGeneralFoodItems PRODUCTS ->
  forall roomData conditionsData productData,
  exists r,
    calculateColdRoomLoad THERMAL_DATA PRODUCTS STORAGE_FACTORS
      roomData conditionsData productData = normal r /\
    (PrimFloat.is_zero (StorageCapacity.maximum (LoadResult.storageCapacity r)) = true ->
     isInfinite (StorageCapacity.utilization (LoadResult.storageCapacity r))).
Proof.
  intros Hg roomData conditionsData productData.
  pose proof (lookupProduct_defined PRODUCTS (ProductData.productType productData) Hg) as Hp.
  unfold calculateColdRoomLoad.
  destruct (lookupProduct PRODUCTS (ProductData.productType productData)) as [ | p | k ];
    [ now contradict Hp | .. ];
    (eexists; split; [ reflexivity | ]);
    cbn [LoadResult.storageCapacity StorageCapacity.maximum StorageCapacity.utilization];
    intros Hz; apply utilization_of_zero_capacity; try exact Hz;
    apply toBoolean_neitherZeroNorNaN, orElse_truthy; vm_compute; reflexivity.
Qed.

(** X10. Lines 78, 82 and 96: a [productType] that names a member of
    [Object.prototype] and is not a key of the table is not a miss.  The
    call returns, with that member as the product; none of its properties
    is a Number, so the storage capacity, the product load, the total,
    the total with the safety factor and the tons are NaN. *)
Theorem inherited_productType_gives_NaN
  (THERMAL_DATA : ThermalData.t float) (PRODUCTS : gmap string (Product.t float))
  (STORAGE_FACTORS : gmap string float)
  roomData conditionsData productData :
  let productType := ProductData.productType productData in
  PRODUCTS !! productType = None ->
  productType ∈ objectPrototype ->
  exists r,
    calculateColdRoomLoad THERMAL_DATA PRODUCTS STORAGE_FACTORS
      roomData conditionsData productData = normal r /\
    ProductInfo.properties (LoadResult.productInfo r) = inherited productType /\
    StorageCapacity.maximum (LoadResult.storageCapacity r) = PrimFloat.nan /\
    StorageCapacity.utilization (LoadResult.storageCapacity r) = PrimFloat.nan /\
    ProductLoad.total (LoadResult.productLoad r) = PrimFloat.nan /\
    LoadResult.totalLoad r = PrimFloat.nan /\
    LoadResult.totalLoadWithSafety r = PrimFloat.nan /\
    LoadResult.refrigerationTons r = PrimFloat.nan.
Proof.
  intros productType Hkey Hproto.
  assert (Hl : lookupProduct PRODUCTS productType = inherited productType).
  { unfold lookupProduct, orElseValue, get. rewrite Hkey.
    rewrite (bool_decide_eq_true_2 _ Hproto). reflexivity. }
  unfold calculateColdRoomLoad. fold productType. rewrite Hl.
  eexists. split; [ reflexivity | ].
  cbn [LoadResult.productInfo ProductInfo.properties LoadResult.storageCapacity
       StorageCapacity.maximum StorageCapacity.utilization
       LoadResult.productLoad ProductLoad.total LoadResult.totalLoad
       LoadResult.totalLoadWithSafety LoadResult.refrigerationTons field].
  change (@NaN float _) with PrimFloat.nan.
  rewrite !mul_nan_r, !mul_nan_l, !div_nan_r, !mul_nan_l, !div_nan_l,
    !add_nan_r, !add_nan_l, !mul_nan_l, !div_nan_l.
  repeat split.
Qed.


(** C8 fails at a storage type that names a member of [Object.prototype]
    and is not a key of the storage table: line 79 reads that member, a
    function and truthy, so the fallback to "Palletized" is skipped.  The
    call returns, the [storageFactor] of the result is that member and
    the storage capacity and utilization are NaN. *)
Theorem inherited_storageType_is_returned
  (THERMAL_DATA : ThermalData.t float) (PRODUCTS : gmap string (Product.t float))
  (STORAGE_FACTORS : gmap string float)
  roomData conditionsData productData :
  let storageType := ProductData.storageType productData in
  hasGeneralFoodItems PRODUCTS ->
  STORAGE_FACTORS !! storageType = None ->
  storageType ∈ objectPrototype ->
  exists r,
    calculateColdRoomLoad THERMAL_DATA PRODUCTS STORAGE_FACTORS
      roomData conditionsData productData = normal r /\
    StorageCapacity.storageFactor (LoadResult.storageCapacity r) = inherited storageType /\
    StorageCapacity.maximum (LoadResult.storageCapacity r) = PrimFloat.nan /\
    StorageCapacity.utilization (LoadResult.storageCapacity r) = PrimFloat.nan.
Proof.
  intros storageType Hg Hkey Hproto.
  pose proof (lookupProduct_defined PRODUCTS (ProductData.productType productData) Hg) as Hp.
  assert (Hl : lookupStorageFactor STORAGE_FACTORS storageType = inherited storageType).
  { unfold lookupStorageFactor, orElseValue, get. rewrite Hkey.
    rewrite (bool_decide_eq_true_2 _ Hproto). reflexivity. }
  unfold calculateColdRoomLoad. fold storageType. rewrite Hl.
  destruct (lookupProduct PRODUCTS (ProductData.productType productData)) as [ | p | k ];
    [ now contradict Hp | .. ];
    (eexists; split; [ reflexivity | ]);
    cbn [LoadResult.storageCapacity StorageCapacity.storageFactor
         StorageCapacity.maximum StorageCapacity.utilization toNumber];
    change (@NaN float _) with PrimFloat.nan;
    rewrite !mul_nan_r, !div_nan_r, !mul_nan_l;
    (split; [ reflexivity | split; reflexivity ]).
Qed.

(** A formula built from sums, products, square roots and quotients of
    operands that are not negative is not negative: one rule for each
    operation. *)
Ltac notNegative_formula :=
  repeat match goal with
  | H : notNegative ?c |- fle ?a ?b =>
      constr_eq a b; constr_eq a c; apply notNegative_fle; exact H
  | |- fle (lit ?d) (lit ?d') =>
      constr_eq d d'; apply fle_lit; vm_compute; reflexivity
  | |- fle (PrimFloat.add _ _) (PrimFloat.add _ _) => apply fle_add
  | |- fle (PrimFloat.mul _ _) (PrimFloat.mul _ _) => apply fle_mul
  | |- fle (PrimFloat.sqrt _) (PrimFloat.sqrt _) => apply fle_sqrt
  | |- fle (PrimFloat.div _ (lit _)) (PrimFloat.div _ (lit _)) =>
      apply fle_div; [ vm_compute; reflexivity | ]
  | H : PrimFloat.ltb 0 ?c = true
    |- fle (PrimFloat.div _ (PrimFloat.mul ?c (lit _))) (PrimFloat.div _ _) =>
      apply fle_div_positive;
      [ apply ltb_mul_positive; [ exact H | vm_compute; reflexivity ] | ]
  end.

(** X11. Section 3 of the specification, the invariant on the loads, as
    the code keeps it in binary64: when no input of a load is negative
    and the pull-down time is above zero, no load, no total and no
    tonnage is negative. *)
Theorem loads_are_not_negative
  (THERMAL_DATA : ThermalData.t float) (PRODUCTS : gmap string (Product.t float))
  (STORAGE_FACTORS : gmap string float)
  roomData conditionsData productData :
  let v := parseInputs roomData conditionsData productData in
  hasGeneralFoodItems PRODUCTS ->
  noNegativeInput THERMAL_DATA PRODUCTS (ProductData.productType productData) v ->
  exists r,
    calculateColdRoomLoad THERMAL_DATA PRODUCTS STORAGE_FACTORS
      roomData conditionsData productData = normal r /\
    notNegative (TransmissionLoad.total (LoadResult.transmissionLoad r)) /\
    notNegative (ProductLoad.total (LoadResult.productLoad r)) /\
    notNegative (LoadResult.airInfiltrationLoad r) /\
    notNegative (InternalLoads.total (LoadResult.internalLoads r)) /\
    notNegative (LoadResult.doorLoad r) /\
    notNegative (LoadResult.totalLoad r) /\
    notNegative (LoadResult.totalLoadWithSafety r) /\
    notNegative (LoadResult.refrigerationTons r).
Proof.
  intros v Hg Hnn.
  pose proof (lookupProduct_defined PRODUCTS (ProductData.productType productData) Hg) as Hp.
  destruct Hnn as ((Hl & Hw & Hh & Hdw & Hdh & Hdo & Hu & Had & Hash & Hacr)
                   & Htd & Hm & Hc & Hio & Hpd & Hn & Hphl & Hwh & Hlw & Hoh & Hel & Hsf).
  unfold calculateColdRoomLoad. fold v.
  revert Hc Hp.
  destruct (lookupProduct PRODUCTS (ProductData.productType productData)) as [ | p | k ];
    intros Hc Hp; [ now contradict Hp | .. ];
    (eexists; split; [ reflexivity | ]);
    cbn [LoadResult.transmissionLoad TransmissionLoad.total
         LoadResult.productLoad ProductLoad.total
         LoadResult.airInfiltrationLoad
         LoadResult.internalLoads InternalLoads.total
         LoadResult.doorLoad LoadResult.totalLoad
         LoadResult.totalLoadWithSafety LoadResult.refrigerationTons];
    cbn [JS.mul JS.add JS.sub JS.div JS.sqrt float_JSNumber] in *;
    repeat match goal with |- _ /\ _ => split end;
    apply fle_notNegative; notNegative_formula.
Qed.

(** X12. Lines 124 and 127: with a total that is not negative and a
    safety factor of at least one, the total with the safety factor is
    not below the total, and the tonnage, a division by 3.517, is not
    above the total with the safety factor. *)
Theorem safety_factor_does_not_lower_the_total
  (THERMAL_DATA : ThermalData.t float) (PRODUCTS : gmap string (Product.t float))
  (STORAGE_FACTORS : gmap string float) :
  hasGeneralFoodItems PRODUCTS ->
  forall roomData conditionsData productData,
  exists r,
    calculateColdRoomLoad THERMAL_DATA PRODUCTS STORAGE_FACTORS
      roomData conditionsData productData = normal r /\
    (notNegative (LoadResult.totalLoad r) ->
     PrimFloat.leb 1 (ThermalData.safetyFactor THERMAL_DATA) = true ->
     notBelow (LoadResult.totalLoad r) (LoadResult.totalLoadWithSafety r) /\
     notBelow (LoadResult.refrigerationTons r) (LoadResult.totalLoadWithSafety r)).
Proof.
  intros Hg roomData conditionsData productData.
  destruct (returns_with_fallback THERMAL_DATA PRODUCTS STORAGE_FACTORS
              roomData conditionsData productData Hg) as [r Hr].
  exists r. split; [ exact Hr | ].
  destruct (aggregates_of_result _ _ _ _ _ _ _ Hr) as (_ & _ & Hsafety & Htons).
  intros Htotal Hsf.
  apply notNegative_fle in Htotal.
  rewrite Htons, Hsafety. cbn [JS.mul JS.div float_JSNumber].
  split; apply fle_notBelow.
  - apply fle_mul_ge_self; assumption.
  - apply fle_div_le_self; [ | vm_compute; reflexivity ].
    apply fle_mul; [ exact Htotal | apply fle_at_least_one; exact Hsf ].
Qed.


Lemma leb_fle x y : notNegative x -> PrimFloat.leb x y = true -> fle x y.
Proof.
  unfold notNegative, notBelow, fle. intros Hx L.
  rewrite ltb_spec in Hx. rewrite leb_spec in L.
  change (Prim2SF 0) with (S754_zero false) in Hx.
  apply Rounding.SFleb_vle; assumption.
Qed.

Ltac monotone_formula :=
  repeat match goal with
  | L : PrimFloat.leb ?a ?b = true |- fle ?a' ?b' =>
      constr_eq a a'; constr_eq b b'; apply leb_fle; [ | exact L ];
      match goal with
      | H : notNegative ?c |- notNegative ?c' => constr_eq c c'; exact H
      end
  | H : notNegative ?c |- fle ?a ?b =>
      constr_eq a b; constr_eq a c; apply notNegative_fle; exact H
  | |- fle (lit ?d) (lit ?d') =>
      constr_eq d d'; apply fle_lit; vm_compute; reflexivity
  | |- fle (PrimFloat.add _ _) (PrimFloat.add _ _) => apply fle_add
  | |- fle (PrimFloat.mul _ _) (PrimFloat.mul _ _) => apply fle_mul
  | |- fle (PrimFloat.sqrt _) (PrimFloat.sqrt _) => apply fle_sqrt
  | |- fle (PrimFloat.div _ (lit _)) (PrimFloat.div _ (lit _)) =>
      apply fle_div; [ vm_compute; reflexivity | ]
  | H : PrimFloat.ltb 0 ?c = true
    |- fle (PrimFloat.div _ (PrimFloat.mul ?c (lit _))) (PrimFloat.div _ _) =>
      apply fle_div_positive;
      [ apply ltb_mul_positive; [ exact H | vm_compute; reflexivity ] | ]
  end.

(** X13. The sizing is monotone.  Of two calls for the same product
    type and pull-down time, the first with no negative input and the
    second with inputs that are at least those of the first, the second
    has no load, no total and no tonnage below that of the first. *)
Theorem loads_do_not_decrease_with_the_inputs
  (THERMAL_DATA : ThermalData.t float) (PRODUCTS : gmap string (Product.t float))
  (STORAGE_FACTORS : gmap string float)
  roomData conditionsData productData roomData' conditionsData' productData' :
  let calculate := calculateColdRoomLoad THERMAL_DATA PRODUCTS STORAGE_FACTORS in
  let v := parseInputs roomData conditionsData productData in
  let v' := parseInputs roomData' conditionsData' productData' in
  hasGeneralFoodItems PRODUCTS ->
  ProductData.productType productData' = ProductData.productType productData ->
  noNegativeInput THERMAL_DATA PRODUCTS (ProductData.productType productData) v ->
  noSmallerInput THERMAL_DATA v v' ->
  exists r r',
    calculate roomData conditionsData productData = normal r /\
    calculate roomData' conditionsData' productData' = normal r' /\
    notBelow (TransmissionLoad.total (LoadResult.transmissionLoad r))
             (TransmissionLoad.total (LoadResult.transmissionLoad r')) /\
    notBelow (ProductLoad.total (LoadResult.productLoad r))
             (ProductLoad.total (LoadResult.productLoad r')) /\
    notBelow (LoadResult.airInfiltrationLoad r) (LoadResult.airInfiltrationLoad r') /\
    notBelow (InternalLoads.total (LoadResult.internalLoads r))
             (InternalLoads.total (LoadResult.internalLoads r')) /\
    notBelow (LoadResult.doorLoad r) (LoadResult.doorLoad r') /\
    notBelow (LoadResult.totalLoad r) (LoadResult.totalLoad r') /\
    notBelow (LoadResult.totalLoadWithSafety r) (LoadResult.totalLoadWithSafety r') /\
    notBelow (LoadResult.refrigerationTons r) (LoadResult.refrigerationTons r').
Proof.
  intros calculate v v' Hg Hsame Hnn Hle.
  pose proof (lookupProduct_defined PRODUCTS (ProductData.productType productData) Hg) as Hp.
  destruct Hnn as ((Hl & Hw & Hh & Hdw & Hdh & Hdo & Hu & Had & Hash & Hacr)
                   & Htd & Hm & Hc & Hio & Hpd & Hn & Hphl & Hwh & Hlw & Hoh & Hel & Hsf).
  destruct Hle as (Ll & Lw & Lh & Ldw & Ldh & Ldo & Lu & Ltd & Lm & Lio & Epd
                   & Ln & Lwh & Llw & Loh & Lel).
  subst calculate. unfold calculateColdRoomLoad. fold v v'.
  rewrite Hsame, Epd.
  revert Hc Hp.
  destruct (lookupProduct PRODUCTS (ProductData.productType productData)) as [ | p | k ];
    intros Hc Hp; [ now contradict Hp | .. ];
    (do 2 eexists; split; [ reflexivity | split; [ reflexivity | ] ]);
    cbn [LoadResult.transmissionLoad TransmissionLoad.total
         LoadResult.productLoad ProductLoad.total
         LoadResult.airInfiltrationLoad
         LoadResult.internalLoads InternalLoads.total
         LoadResult.doorLoad LoadResult.totalLoad
         LoadResult.totalLoadWithSafety LoadResult.refrigerationTons];
    cbn [JS.mul JS.add JS.sub JS.div JS.sqrt float_JSNumber] in *;
    repeat match goal with |- _ /\ _ => split end;
    apply fle_notBelow; monotone_formula.
Qed.

End Sizing.

(** ** The function at work on the example tables *)

Section Evaluation.
Local Open Scope float_scope.

Lemma sample_hasGeneralFoodItems : hasGeneralFoodItems Sample.PRODUCTS.
Proof. eexists. vm_compute. reflexivity. Qed.

(** The numerals of the source denote the binary64 values one expects. *)
Example literals_binary64 :
  (@lit float _ 5.0, @lit float _ 0.25, @lit float _ 1000, @lit float _ 0)
  = (5, 0.25, 1000, 0).
Proof. vm_compute. reflexivity. Qed.

Example parseFloat_binary64 :
  map (@parseFloat float _)
      [ ""; "abc"; "."; "12.5"; "  -3"; "5."; ".5e1"; "1e"; "0x10"; "12px";
        "-0"; "Infinity"; "-Infinity"; "1e400" ]
  = [ nan; nan; nan; 12.5; -3; 5; 5; 1; 0; 12;
      -0; infinity; neg_infinity; infinity ].
Proof. vm_compute. reflexivity. Qed.

(** C3, as stated, fails: "Infinity" parses to a value that is not finite
    and is kept, not replaced by the default 5. *)
Lemma infinite_length_is_kept :
  let roomData' :=
    {| RoomData.length := "Infinity"; RoomData.width := "";
       RoomData.height := ""; RoomData.doorWidth := ""; RoomData.doorHeight := "";
       RoomData.doorOpenings := ""; RoomData.insulationType := "";
       RoomData.insulationThickness := 100 |} in
  let v := parseInputs roomData' Sample.emptyConditions Sample.emptyProduct in
  PrimFloat.is_finite (parseFloat (RoomData.length roomData')) = false /\
  Inputs.length v = infinity /\
  Inputs.length v <> lit 5.0.
Proof.
  cbn zeta.
  split; [ vm_compute; reflexivity | ].
  split; [ vm_compute; reflexivity | ].
  apply float_neq. vm_compute. reflexivity.
Qed.

(** C4, as stated, fails: "Unknown" is not a key of the products table,
    and the result differs from the one for "General Food Items" (in
    [productInfo.type]). *)
Lemma unknown_productType_output_differs :
  Sample.PRODUCTS !! "Unknown" = None /\
  Sample.calculate Sample.scenarioRoom (Sample.conditions "35") (Sample.product "Unknown")
  <> Sample.calculate Sample.scenarioRoom (Sample.conditions "35")
       (Sample.product "General Food Items").
Proof.
  split; [ vm_compute; reflexivity | ].
  intros Heq.
  apply (f_equal (fun c => match c with
                           | normal r => ProductInfo.type (LoadResult.productInfo r)
                           | throw _ => ""
                           end)) in Heq.
  vm_compute in Heq. discriminate Heq.
Qed.

(** A key that names a member of [Object.prototype] is not a miss: the
    read gives that member, no property of it is a Number, and the
    product load is NaN. *)
Example inherited_productType_is_not_a_miss :
  exists r,
    Sample.calculate Sample.scenarioRoom (Sample.conditions "35")
      (Sample.product "constructor") = normal r /\
    ProductInfo.properties (LoadResult.productInfo r) = inherited "constructor" /\
    ProductLoad.total (LoadResult.productLoad r) = nan.
Proof. eexists. vm_compute. repeat split. Qed.

(** The condition on the thermal table is needed: on a table whose
    entry for "PUF" at 100 is 0.22, the U-factor of the call with nothing
    usable is 0.22. *)
Example default_uFactor_comes_from_table :
  let roomData := Sample.room "" "" nan in
  nothingUsable roomData Sample.emptyConditions Sample.emptyProduct /\
  exists r,
    Sample.calculate roomData Sample.emptyConditions Sample.emptyProduct = normal r /\
    Construction.uFactor (LoadResult.construction r) = lit 0.22 /\
    Construction.uFactor (LoadResult.construction r) <> 0.25.
Proof.
  cbn zeta. split.
  - repeat split; vm_compute; reflexivity.
  - eexists. split; [ vm_compute; reflexivity | ].
    split; [ vm_compute; reflexivity | apply float_neq; vm_compute; reflexivity ].
Qed.

(** C6, as stated, fails.  A room of negative height whose door is opened
    a negative number of times a day is an input like any other: the wall
    area is 2 * (5 + 4) * -3 = -54 against 20 + 20 of ceiling and floor,
    the volume is -60.  From 30 to 40 degrees outside, with 4 inside, the
    temperature difference goes from 26 to 36, both positive, and the
    three loads go down. *)
Lemma loads_decrease_in_a_negative_room :
  exists r r',
    Sample.calculate (Sample.room "-3" "-20" 100) (Sample.conditions "30")
      Sample.emptyProduct = normal r /\
    Sample.calculate (Sample.room "-3" "-20" 100)
      (withExternalTemp "40" (Sample.conditions "30")) Sample.emptyProduct = normal r' /\
    LoadResult.temperatureDifference r = 26 /\
    LoadResult.temperatureDifference r' = 36 /\
    PrimFloat.ltb (TransmissionLoad.total (LoadResult.transmissionLoad r'))
                  (TransmissionLoad.total (LoadResult.transmissionLoad r)) = true /\
    PrimFloat.ltb (LoadResult.airInfiltrationLoad r')
                  (LoadResult.airInfiltrationLoad r) = true /\
    PrimFloat.ltb (LoadResult.doorLoad r') (LoadResult.doorLoad r) = true.
Proof. do 2 eexists. vm_compute. repeat split. Qed.

(** Hence the statement of C6 does not hold of these tables. *)
Lemma not_strictlyIncreasingInExternalTemp :
  ~ strictlyIncreasingInExternalTemp
      Sample.THERMAL_DATA Sample.PRODUCTS Sample.STORAGE_FACTORS.
Proof.
  intros Hclaim.
  pose (roomData := @Sample.room float "-3" "-20" 100).
  destruct (returns_with_fallback Sample.THERMAL_DATA
              Sample.PRODUCTS Sample.STORAGE_FACTORS roomData
              (Sample.conditions "30") Sample.emptyProduct
              sample_hasGeneralFoodItems) as [r Hr].
  destruct (returns_with_fallback Sample.THERMAL_DATA
              Sample.PRODUCTS Sample.STORAGE_FACTORS roomData
              (withExternalTemp "40" (Sample.conditions "30")) Sample.emptyProduct
              sample_hasGeneralFoodItems) as [r' Hr'].
  specialize (Hclaim roomData (Sample.conditions "30") Sample.emptyProduct "40" r r' Hr Hr').
  vm_compute in Hr, Hr'.
  injection Hr as <-. injection Hr' as <-.
  vm_compute in Hclaim.
  destruct (Hclaim eq_refl eq_refl) as (Ht & _). discriminate Ht.
Qed.

(** *** The theorems at the scenario of section 8 *)

Lemma totalLoad_is_sum_of_categories_witness :
  exists r,
    Sample.calculate Sample.scenarioRoom (Sample.conditions "35")
      (Sample.product "Dairy") = normal r /\
    LoadResult.totalLoad r =
      TransmissionLoad.total (LoadResult.transmissionLoad r)
      + ProductLoad.total (LoadResult.productLoad r)
      + LoadResult.airInfiltrationLoad r
      + InternalLoads.total (LoadResult.internalLoads r)
      + LoadResult.doorLoad r.
Proof.
  apply (totalLoad_is_sum_of_categories Sample.THERMAL_DATA
           Sample.PRODUCTS Sample.STORAGE_FACTORS
           ltac:(eexists; vm_compute; reflexivity)
           Sample.scenarioRoom (Sample.conditions "35") (Sample.product "Dairy")).
Defined.

Lemma safety_and_tons_identities_witness :
  exists r,
    Sample.calculate Sample.scenarioRoom (Sample.conditions "35")
      (Sample.product "Dairy") = normal r /\
    LoadResult.totalLoadWithSafety r = LoadResult.totalLoad r * lit 1.1 /\
    LoadResult.refrigerationTons r = LoadResult.totalLoadWithSafety r / lit 3.517.
Proof.
  apply (safety_and_tons_identities Sample.THERMAL_DATA
           Sample.PRODUCTS Sample.STORAGE_FACTORS
           ltac:(eexists; vm_compute; reflexivity)
           Sample.scenarioRoom (Sample.conditions "35") (Sample.product "Dairy")).
Defined.

Lemma productLoad_is_sensible_heat_witness :
  exists r,
    Sample.calculate Sample.scenarioRoom (Sample.conditions "35")
      (Sample.product "Dairy") = normal r /\
    ProductInfo.properties (LoadResult.productInfo r) =
      lookupProduct Sample.PRODUCTS "Dairy" /\
    ProductLoad.latent (LoadResult.productLoad r) = lit 0 /\
    ProductLoad.sensible (LoadResult.productLoad r) =
      (2500 * field Product.specificHeatAbove
                (ProductInfo.properties (LoadResult.productInfo r))
       * (25 - 4)) / (6 * lit 3.6) /\
    ProductLoad.total (LoadResult.productLoad r) =
      ProductLoad.sensible (LoadResult.productLoad r).
Proof.
  apply (productLoad_is_sensible_heat Sample.THERMAL_DATA
           Sample.PRODUCTS Sample.STORAGE_FACTORS
           ltac:(eexists; vm_compute; reflexivity)
           Sample.scenarioRoom (Sample.conditions "35") (Sample.product "Dairy")).
Defined.

Lemma raw_keys_are_echoed_witness :
  exists r,
    Sample.calculate Sample.scenarioRoom (Sample.conditions "35")
      (Sample.product "Unknown") = normal r /\
    StorageCapacity.storageType (LoadResult.storageCapacity r) = "" /\
    ProductInfo.type (LoadResult.productInfo r) = "Unknown" /\
    (get Sample.PRODUCTS "Unknown" = undefined ->
     ProductInfo.properties (LoadResult.productInfo r) =
       get Sample.PRODUCTS "General Food Items") /\
    (get Sample.STORAGE_FACTORS "" = undefined ->
     StorageCapacity.storageFactor (LoadResult.storageCapacity r) =
       get Sample.STORAGE_FACTORS "Palletized").
Proof.
  apply (raw_keys_are_echoed Sample.THERMAL_DATA
           Sample.PRODUCTS Sample.STORAGE_FACTORS
           ltac:(eexists; vm_compute; reflexivity)
           Sample.scenarioRoom (Sample.conditions "35") (Sample.product "Unknown")).
Defined.

Lemma unknown_productType_falls_back_witness :
  exists r',
    Sample.calculate Sample.scenarioRoom (Sample.conditions "35")
      (Sample.product "General Food Items") = normal r' /\
    Sample.calculate Sample.scenarioRoom (Sample.conditions "35")
      (Sample.product "Unknown") = normal (withProductInfoType "Unknown" r').
Proof.
  apply (unknown_productType_falls_back Sample.THERMAL_DATA
           Sample.PRODUCTS Sample.STORAGE_FACTORS
           ltac:(eexists; vm_compute; reflexivity)
           Sample.scenarioRoom (Sample.conditions "35") (Sample.product "Unknown")).
  - vm_compute. reflexivity.
  - apply (bool_decide_eq_false_1 ("Unknown" ∈ objectPrototype)). vm_compute. reflexivity.
Defined.


Lemma totalLoad_within_tolerance_witness :
  exists r,
    Sample.calculate Sample.scenarioRoom (Sample.conditions "35")
      (Sample.product "Dairy") = normal r /\
    (PrimFloat.is_finite (LoadResult.totalLoad r) = true ->
     LoadResult.totalLoad r
     - (TransmissionLoad.total (LoadResult.transmissionLoad r)
        + ProductLoad.total (LoadResult.productLoad r)
        + LoadResult.airInfiltrationLoad r
        + InternalLoads.total (LoadResult.internalLoads r)
        + LoadResult.doorLoad r) = 0 /\
     PrimFloat.leb
       (PrimFloat.abs
          (LoadResult.totalLoad r
           - (TransmissionLoad.total (LoadResult.transmissionLoad r)
              + ProductLoad.total (LoadResult.productLoad r)
              + LoadResult.airInfiltrationLoad r
              + InternalLoads.total (LoadResult.internalLoads r)
              + LoadResult.doorLoad r)))
       (lit 1e-9) = true).
Proof.
  apply (totalLoad_within_tolerance Sample.THERMAL_DATA
           Sample.PRODUCTS Sample.STORAGE_FACTORS
           ltac:(eexists; vm_compute; reflexivity)
           Sample.scenarioRoom (Sample.conditions "35") (Sample.product "Dairy")).
Defined.

(** One degree outside, four inside. *)
Lemma negative_difference_gives_NaN_witness :
  exists r,
    Sample.calculate Sample.scenarioRoom (Sample.conditions "1")
      (Sample.product "Dairy") = normal r /\
    (PrimFloat.ltb (LoadResult.temperatureDifference r) 0 = true ->
     LoadResult.doorLoad r = nan /\
     LoadResult.totalLoad r = nan /\
     LoadResult.totalLoadWithSafety r = nan /\
     LoadResult.refrigerationTons r = nan).
Proof.
  apply (negative_difference_gives_NaN Sample.THERMAL_DATA
           Sample.PRODUCTS Sample.STORAGE_FACTORS
           ltac:(eexists; vm_compute; reflexivity)
           Sample.scenarioRoom (Sample.conditions "1") (Sample.product "Dairy")).
Defined.

Example negative_difference_at_one_degree :
  exists r,
    Sample.calculate Sample.scenarioRoom (Sample.conditions "1")
      (Sample.product "Dairy") = normal r /\
    LoadResult.temperatureDifference r = -3 /\
    LoadResult.totalLoad r = nan.
Proof. eexists. vm_compute. repeat split. Qed.

(** Two more ways in which the statement of C6 fails.  In binary64 a
    higher external temperature can give the very same door load, the
    square root rounding to the same value; and an external temperature
    of "0" is replaced by the default 35, so that "10" is the colder of
    the two. *)
Example doorLoad_can_stay_equal_in_binary64 :
  exists r r',
    Sample.calculate (Sample.room "" "" 100) (Sample.conditions "20")
      Sample.emptyProduct = normal r /\
    Sample.calculate (Sample.room "" "" 100) (Sample.conditions "20.000000000000004")
      Sample.emptyProduct = normal r' /\
    PrimFloat.ltb (parseFloat "20") (parseFloat "20.000000000000004") = true /\
    PrimFloat.ltb (LoadResult.temperatureDifference r)
                  (LoadResult.temperatureDifference r') = true /\
    PrimFloat.ltb 0 (LoadResult.temperatureDifference r) = true /\
    LoadResult.doorLoad r = LoadResult.doorLoad r'.
Proof. do 2 eexists. vm_compute. repeat split. Qed.

Example zero_externalTemp_is_defaulted :
  exists r r',
    Sample.calculate (Sample.room "" "" 100) (Sample.conditions "0")
      Sample.emptyProduct = normal r /\
    Sample.calculate (Sample.room "" "" 100) (Sample.conditions "10")
      Sample.emptyProduct = normal r' /\
    LoadResult.temperatureDifference r = 31 /\
    LoadResult.temperatureDifference r' = 6 /\
    PrimFloat.ltb (TransmissionLoad.total (LoadResult.transmissionLoad r'))
                  (TransmissionLoad.total (LoadResult.transmissionLoad r)) = true.
Proof. do 2 eexists. vm_compute. repeat split. Qed.

(** The theorem of C6 at 30 and 40 degrees outside, everything else
    left to its default. *)
Lemma loads_do_not_decrease_with_externalTemp_witness :
  exists r r',
    Sample.calculate (Sample.room "" "" nan) (Sample.conditions "30")
      Sample.emptyProduct = normal r /\
    Sample.calculate (Sample.room "" "" nan) (withExternalTemp "40" (Sample.conditions "30"))
      Sample.emptyProduct = normal r' /\
    notBelow (TransmissionLoad.total (LoadResult.transmissionLoad r))
             (TransmissionLoad.total (LoadResult.transmissionLoad r')) /\
    notBelow (LoadResult.airInfiltrationLoad r) (LoadResult.airInfiltrationLoad r') /\
    notBelow (LoadResult.doorLoad r) (LoadResult.doorLoad r').
Proof.
  apply (loads_do_not_decrease_with_externalTemp
           Sample.THERMAL_DATA Sample.PRODUCTS Sample.STORAGE_FACTORS
           (Sample.room "" "" nan) (Sample.conditions "30") Sample.emptyProduct "40").
  - exact sample_hasGeneralFoodItems.
  - vm_compute. repeat split.
  - vm_compute. reflexivity.
  - vm_compute. reflexivity.
Defined.

(** *** The further properties at example calls *)

Lemma storageType_changes_storageCapacity_only_witness :
  exists r r',
    Sample.calculate Sample.scenarioRoom (Sample.conditions "35")
      (Sample.product "Dairy") = normal r /\
    Sample.calculate Sample.scenarioRoom (Sample.conditions "35")
      (withStorageType "Bulk" (Sample.product "Dairy")) = normal r' /\
    r' = withStorageCapacity (LoadResult.storageCapacity r') r.
Proof.
  apply (storageType_changes_storageCapacity_only Sample.THERMAL_DATA
           Sample.PRODUCTS Sample.STORAGE_FACTORS
           ltac:(eexists; vm_compute; reflexivity)
           Sample.scenarioRoom (Sample.conditions "35") (Sample.product "Dairy") "Bulk").
Defined.

(** A table whose only product has no density: the capacity is zero and
    the utilization is Infinity. *)
Lemma zero_capacity_gives_infinite_utilization_witness :
  exists r,
    calculateColdRoomLoad Sample.THERMAL_DATA weightlessProducts Sample.STORAGE_FACTORS
      Sample.scenarioRoom (Sample.conditions "35") (Sample.product "Dairy") = normal r /\
    StorageCapacity.utilization (LoadResult.storageCapacity r) = infinity.
Proof.
  destruct (zero_capacity_gives_infinite_utilization Sample.THERMAL_DATA
              weightlessProducts Sample.STORAGE_FACTORS
              ltac:(eexists; vm_compute; reflexivity)
              Sample.scenarioRoom (Sample.conditions "35") (Sample.product "Dairy"))
    as (r & Hr & Hinf).
  exists r. split; [ exact Hr | ].
  vm_compute in Hr. injection Hr as <-.
  destruct (Hinf eq_refl) as [E | E]; [ exact E | ].
  vm_compute in E. discriminate E.
Defined.

(** The failing input of C8: the storage type "toString". *)
Lemma inherited_storageType_is_returned_witness :
  exists r,
    Sample.calculate Sample.scenarioRoom (Sample.conditions "35")
      (withStorageType "toString" (Sample.product "Dairy")) = normal r /\
    StorageCapacity.storageFactor (LoadResult.storageCapacity r) = inherited "toString" /\
    StorageCapacity.maximum (LoadResult.storageCapacity r) = nan /\
    StorageCapacity.utilization (LoadResult.storageCapacity r) = nan.
Proof.
  apply (inherited_storageType_is_returned Sample.THERMAL_DATA
           Sample.PRODUCTS Sample.STORAGE_FACTORS
           Sample.scenarioRoom (Sample.conditions "35")
           (withStorageType "toString" (Sample.product "Dairy"))).
  - eexists. vm_compute. reflexivity.
  - vm_compute. reflexivity.
  - apply (bool_decide_eq_true_1 ("toString" ∈ objectPrototype)). vm_compute. reflexivity.
Defined.

Lemma inherited_productType_gives_NaN_witness :
  exists r,
    Sample.calculate Sample.scenarioRoom (Sample.conditions "35")
      (Sample.product "constructor") = normal r /\
    ProductInfo.properties (LoadResult.productInfo r) = inherited "constructor" /\
    StorageCapacity.maximum (LoadResult.storageCapacity r) = nan /\
    StorageCapacity.utilization (LoadResult.storageCapacity r) = nan /\
    ProductLoad.total (LoadResult.productLoad r) = nan /\
    LoadResult.totalLoad r = nan /\
    LoadResult.totalLoadWithSafety r = nan /\
    LoadResult.refrigerationTons r = nan.
Proof.
  apply (inherited_productType_gives_NaN Sample.THERMAL_DATA
           Sample.PRODUCTS Sample.STORAGE_FACTORS
           Sample.scenarioRoom (Sample.conditions "35") (Sample.product "constructor")).
  - vm_compute. reflexivity.
  - apply (bool_decide_eq_true_1 ("constructor" ∈ objectPrototype)). vm_compute. reflexivity.
Defined.

(** The scenario of section 8. *)
Lemma loads_are_not_negative_witness :
  exists r,
    Sample.calculate Sample.scenarioRoom (Sample.conditions "35")
      (Sample.product "Dairy") = normal r /\
    notNegative (TransmissionLoad.total (LoadResult.transmissionLoad r)) /\
    notNegative (ProductLoad.total (LoadResult.productLoad r)) /\
    notNegative (LoadResult.airInfiltrationLoad r) /\
    notNegative (InternalLoads.total (LoadResult.internalLoads r)) /\
    notNegative (LoadResult.doorLoad r) /\
    notNegative (LoadResult.totalLoad r) /\
    notNegative (LoadResult.totalLoadWithSafety r) /\
    notNegative (LoadResult.refrigerationTons r).
Proof.
  apply (loads_are_not_negative Sample.THERMAL_DATA
           Sample.PRODUCTS Sample.STORAGE_FACTORS
           Sample.scenarioRoom (Sample.conditions "35") (Sample.product "Dairy")).
  - eexists. vm_compute. reflexivity.
  - vm_compute. repeat split.
Defined.

(** The same scenario, with the safety factor 1.1 of the example
    table. *)
Lemma safety_factor_does_not_lower_the_total_witness :
  exists r,
    Sample.calculate Sample.scenarioRoom (Sample.conditions "35")
      (Sample.product "Dairy") = normal r /\
    notBelow (LoadResult.totalLoad r) (LoadResult.totalLoadWithSafety r) /\
    notBelow (LoadResult.refrigerationTons r) (LoadResult.totalLoadWithSafety r).
Proof.
  destruct (safety_factor_does_not_lower_the_total Sample.THERMAL_DATA
              Sample.PRODUCTS Sample.STORAGE_FACTORS
              ltac:(eexists; vm_compute; reflexivity)
              Sample.scenarioRoom (Sample.conditions "35") (Sample.product "Dairy"))
    as (r & Hr & Hsafe).
  exists r. split; [ exact Hr | ].
  vm_compute in Hr. injection Hr as <-.
  apply Hsafe; vm_compute; reflexivity.
Defined.

(** A higher room whose door is opened more often, on a warmer day. *)
Lemma loads_do_not_decrease_with_the_inputs_witness :
  exists r r',
    Sample.calculate (Sample.room "3" "20" 100) (Sample.conditions "30")
      (Sample.product "Dairy") = normal r /\
    Sample.calculate (Sample.room "4" "30" 100) (Sample.conditions "40")
      (Sample.product "Dairy") = normal r' /\
    notBelow (TransmissionLoad.total (LoadResult.transmissionLoad r))
             (TransmissionLoad.total (LoadResult.transmissionLoad r')) /\
    notBelow (ProductLoad.total (LoadResult.productLoad r))
             (ProductLoad.total (LoadResult.productLoad r')) /\
    notBelow (LoadResult.airInfiltrationLoad r) (LoadResult.airInfiltrationLoad r') /\
    notBelow (InternalLoads.total (LoadResult.internalLoads r))
             (InternalLoads.total (LoadResult.internalLoads r')) /\
    notBelow (LoadResult.doorLoad r) (LoadResult.doorLoad r') /\
    notBelow (LoadResult.totalLoad r) (LoadResult.totalLoad r') /\
    notBelow (LoadResult.totalLoadWithSafety r) (LoadResult.totalLoadWithSafety r') /\
    notBelow (LoadResult.refrigerationTons r) (LoadResult.refrigerationTons r').
Proof.
  apply (loads_do_not_decrease_with_the_inputs Sample.THERMAL_DATA
           Sample.PRODUCTS Sample.STORAGE_FACTORS
           (Sample.room "3" "20" 100) (Sample.conditions "30") (Sample.product "Dairy")
           (Sample.room "4" "30" 100) (Sample.conditions "40") (Sample.product "Dairy")).
  - eexists. vm_compute. reflexivity.
  - reflexivity.
  - vm_compute. repeat split.
  - vm_compute. repeat split.
Defined.

End Evaluation.

